(** * ListaZakupow: the shopping-list service and its browser client

    A shallow embedding of the PHP request handlers ([items.php] in its two
    revisions, [login.php], the registration script) and of the client
    helpers [PasswordStrength] and [SessionManager] of [lista.js], followed
    by the properties the specification states about them.

    Conventions of the embedding.
    - A PHP string is a byte string: Rocq's [string].
    - The decoded JSON request is a record of optional fields; [None] is a
      key that is absent or [null] (what [isset] and [??] test).  A present
      field carries the value the handler obtains from it: a string for
      text and description, the integer given by [intval] for quantity, the
      boolean given by [boolval] for completed.  The unit, which one branch
      compares with [in_array], is kept as decoded: a string or a boolean.
    - The [id] query parameter is the integer it spells.
    - The relational store is a record of tables (lists of rows) with the
      AUTO_INCREMENT counters; [NOW()] is the time of the request, in
      seconds.  A bound value reaches its column as the value PHP holds: a
      string as its bytes, an integer as itself, a boolean as 0 or 1.
    - A script is a computation in the monad [php]: it threads the store,
      the session and the list of pending storage faults, and ends by
      sending a response ([exit]), by throwing a [PDOException], or by a
      fatal error nobody catches. *)

From Stdlib Require Import ZArith Ascii String List Bool Lia DecimalString.
From Stdlib Require Import Sorting.Sorted Sorting.Permutation.
From stdpp Require Import base option list gmap strings.

Import ListNotations.
Local Open Scope string_scope.
Local Open Scope list_scope.
Local Open Scope Z_scope.

(** ** PHP string helpers *)

(** The characters [trim] strips by default: space, tab, line feed,
    carriage return, NUL and vertical tab. *)
Definition is_trim_char (c : ascii) : bool :=
  let n := nat_of_ascii c in
  (n =? 32)%nat || (n =? 9)%nat || (n =? 10)%nat || (n =? 13)%nat
  || (n =? 0)%nat || (n =? 11)%nat.

Fixpoint ltrim (s : string) : string :=
  match s with
  | EmptyString => EmptyString
  | String c s' => if is_trim_char c then ltrim s' else s
  end.

Fixpoint rtrim (s : string) : string :=
  match s with
  | EmptyString => EmptyString
  | String c s' =>
      match rtrim s' with
      | EmptyString => if is_trim_char c then EmptyString else String c EmptyString
      | r => String c r
      end
  end.

Definition trim (s : string) : string := rtrim (ltrim s).

(** [empty($s)] on a string: the empty string and the string "0". *)
Definition php_empty (s : string) : bool :=
  String.eqb s "" || String.eqb s "0".

(** A decoded JSON value that is a string or a boolean.  Numbers, arrays
    and objects are outside the embedding: [==] between a number and a
    non-numeric string changed between PHP 7 and PHP 8, and the source does
    not say which one runs it. *)
Inductive mixed :=
| MString (s : string)
| MBool (b : bool).

(** The conversion to string PDO applies to a value bound as
    [PDO::PARAM_STR]: [true] is "1" and [false] is the empty string. *)
Definition strval (v : mixed) : string :=
  match v with
  | MString s => s
  | MBool true => "1"
  | MBool false => ""
  end.

(** [$v == $s] for a string [$s] that is not numeric: a string is compared
    byte by byte, a boolean with the truth value of [$s], which is false
    for "" and "0" only. *)
Definition loose_eq (v : mixed) (s : string) : bool :=
  match v with
  | MString x => String.eqb x s
  | MBool b => Bool.eqb b (negb (php_empty s))
  end.

(** [in_array($needle, $haystack)], without the strict flag, for a haystack
    of non-numeric strings. *)
Definition in_array (needle : mixed) (haystack : list string) : bool :=
  existsb (loose_eq needle) haystack.

Definition validUnits : list string :=
  ["szt"; "kg"; "g"; "l"; "ml"; "opak"; "inna"].

(** ** The store *)

Record item_row := {
  i_id : Z;
  i_user_id : Z;
  i_text : string;
  i_quantity : Z;
  i_unit : string;
  i_description : string;
  i_completed : bool;
  i_added_at : Z;
  i_completed_at : option Z;
  i_updated_at : option Z
}.

Record user_row := {
  u_id : Z;
  u_username : string;
  u_password : string
}.

Record database := {
  shopping_items : list item_row;
  users : list user_row;
  next_item_id : Z;
  next_user_id : Z
}.

(** What [SELECT id, text, quantity, unit, description, completed,
    added_at, completed_at, updated_at] fetches: a row without its
    [user_id]. *)
Record item_json := {
  j_id : Z;
  j_text : string;
  j_quantity : Z;
  j_unit : string;
  j_description : string;
  j_completed : bool;
  j_added_at : Z;
  j_completed_at : option Z;
  j_updated_at : option Z
}.

Definition fetch_columns (r : item_row) : item_json :=
  {| j_id := i_id r; j_text := i_text r; j_quantity := i_quantity r;
     j_unit := i_unit r; j_description := i_description r;
     j_completed := i_completed r; j_added_at := i_added_at r;
     j_completed_at := i_completed_at r; j_updated_at := i_updated_at r |}.

(** ** Requests and responses *)

Record item_fields := {
  f_text : option string;
  f_quantity : option Z;
  f_unit : option mixed;
  f_description : option string;
  f_completed : option bool
}.

(** The decoded body of a request to [items.php]: the item fields at the
    top level and the array under the key [items]. *)
Record items_body := {
  b_fields : item_fields;
  b_items : option (list item_fields)
}.

Record credentials := {
  c_username : option string;
  c_password : option string
}.

(** [req_body] is [None] when [json_decode] fails. *)
Record request (B : Type) := {
  req_method : string;
  req_id : option Z;
  req_action : option string;
  req_body : option B;
  req_now : Z
}.
Arguments req_method {B} _.
Arguments req_id {B} _.
Arguments req_action {B} _.
Arguments req_body {B} _.
Arguments req_now {B} _.

Inductive body :=
| ErrorBody (msg : string)
| MessageBody (msg : string)
| ItemBody (it : item_json)
| ItemsBody (l : list item_json)
| CompletedBody (b : bool)
| UserBody (msg : string) (user_id : Z) (username : string)
| RawText (s : string).

Record response := { status : Z; content : body }.

(** ** The script monad *)

Record world := {
  db : database;
  php_session : option (Z * string);
  db_connect_error : option string;
  db_faults : list (option string);
  transaction : option (list item_row)
}.

Definition set_db (d : database) (w : world) : world :=
  {| db := d; php_session := php_session w;
     db_connect_error := db_connect_error w; db_faults := db_faults w;
     transaction := transaction w |}.

Definition set_session (s : option (Z * string)) (w : world) : world :=
  {| db := db w; php_session := s;
     db_connect_error := db_connect_error w; db_faults := db_faults w;
     transaction := transaction w |}.

Definition set_faults (f : list (option string)) (w : world) : world :=
  {| db := db w; php_session := php_session w;
     db_connect_error := db_connect_error w; db_faults := f;
     transaction := transaction w |}.

Definition set_transaction (t : option (list item_row)) (w : world) : world :=
  {| db := db w; php_session := php_session w;
     db_connect_error := db_connect_error w; db_faults := db_faults w;
     transaction := t |}.

Definition set_items (l : list item_row) (d : database) : database :=
  {| shopping_items := l; users := users d;
     next_item_id := next_item_id d; next_user_id := next_user_id d |}.

Inductive outcome (A : Type) :=
| Val (a : A)
| Exit (r : response)
| Throw (msg : string)
| Fatal.
Arguments Val {A} _.
Arguments Exit {A} _.
Arguments Throw {A} _.
Arguments Fatal {A}.

Definition php (A : Type) : Type := world -> outcome A * world.

Definition ret {A} (a : A) : php A := fun w => (Val a, w).

Definition bind {A B} (m : php A) (k : A -> php B) : php B :=
  fun w =>
    match m w with
    | (Val a, w') => k a w'
    | (Exit r, w') => (Exit r, w')
    | (Throw msg, w') => (Throw msg, w')
    | (Fatal, w') => (Fatal, w')
    end.

Notation "'let*' x ':=' m 'in' k" := (bind m (fun x => k))
  (at level 10, x pattern, m at level 100, k at level 200).

(** [try { m } catch (PDOException $e) { h ($e->getMessage()) }]; an
    [exit] and a fatal error pass through. *)
Definition try_catch {A} (m : php A) (h : string -> php A) : php A :=
  fun w =>
    match m w with
    | (Throw msg, w') => h msg w'
    | r => r
    end.

(** [sendJsonResponse]: status, JSON body, [exit]. *)
Definition sendJsonResponse {A} (b : body) (statusCode : Z) : php A :=
  fun w => (Exit {| status := statusCode; content := b |}, w).

(** [getDB]: a failed connection ends the script with [die]. *)
Definition getDB : php unit :=
  fun w =>
    match db_connect_error w with
    | Some msg =>
        (Exit {| status := 200;
                 content := RawText ("Database connection failed: " ++ msg)%string |}, w)
    | None => (Val tt, w)
    end.

(** [$stmt->execute()]: the next pending fault, if any, is thrown as a
    [PDOException]; otherwise the statement runs on the tables. *)
Definition execute {A} (stmt : database -> A * database) : php A :=
  fun w =>
    match db_faults w with
    | Some msg :: rest => (Throw msg, set_faults rest w)
    | None :: rest =>
        let (a, d) := stmt (db w) in (Val a, set_db d (set_faults rest w))
    | [] => let (a, d) := stmt (db w) in (Val a, set_db d w)
    end.

Definition beginTransaction : php unit :=
  fun w => (Val tt, set_transaction (Some (shopping_items (db w))) w).

Definition commit : php unit :=
  fun w => (Val tt, set_transaction None w).

(** [rollBack] restores the rows; AUTO_INCREMENT counters are not rolled
    back. *)
Definition rollBack : php unit :=
  fun w =>
    match transaction w with
    | Some rows => (Val tt, set_transaction None (set_db (set_items rows (db w)) w))
    | None => (Val tt, w)
    end.

(** The response a client receives from a script, and the world the
    script leaves.  A script that ends without output answers 200 with an
    empty body; an uncaught exception or error answers 500 with an empty
    body ([display_errors] is off). *)
Definition run (script : php unit) (w : world) : response * world :=
  match script w with
  | (Exit r, w') => (r, w')
  | (Val _, w') => ({| status := 200; content := RawText "" |}, w')
  | (Throw _, w') => ({| status := 500; content := RawText "" |}, w')
  | (Fatal, w') => ({| status := 500; content := RawText "" |}, w')
  end.

(** ** SQL statements on the tables *)

Definition owned_by (user_id : Z) (r : item_row) : bool := i_user_id r =? user_id.

(** [ORDER BY completed, added_at DESC]: [list_order a b] holds when row
    [a] may come before row [b]. *)
Definition list_order (a b : item_row) : bool :=
  match i_completed a, i_completed b with
  | false, true => true
  | true, false => false
  | _, _ => i_added_at b <=? i_added_at a
  end.

Fixpoint order_insert (r : item_row) (l : list item_row) : list item_row :=
  match l with
  | [] => [r]
  | x :: l' => if list_order r x then r :: l else x :: order_insert r l'
  end.

Fixpoint order_by (l : list item_row) : list item_row :=
  match l with
  | [] => []
  | r :: l' => order_insert r (order_by l')
  end.

(** [SELECT ... FROM shopping_items WHERE user_id = :user_id
     ORDER BY completed, added_at DESC] *)
Definition sql_select_list (user_id : Z) (d : database) : list item_row * database :=
  (order_by (filter (fun r => owned_by user_id r = true) (shopping_items d)), d).

(** Modelled from the spec: the declaration of the table [shopping_items]
    is not in the repository.  Its [id] is AUTO_INCREMENT, and the columns an
    INSERT does not list ([completed_at], [updated_at]) start as NULL: the
    completed timestamp is set when completed becomes true, the updated
    timestamp on a mutation.  [unit] is a character column. *)
Definition new_row (d : database) (user_id : Z) (text : string) (quantity : Z)
    (unit description : string) (completed : bool) (now : Z) : item_row :=
  {| i_id := next_item_id d; i_user_id := user_id; i_text := text;
     i_quantity := quantity; i_unit := unit; i_description := description;
     i_completed := completed; i_added_at := now;
     i_completed_at := None; i_updated_at := None |}.

(** [INSERT INTO shopping_items (user_id, text, quantity, unit, description,
     completed, added_at) VALUES (..., NOW())]; the result is
    [lastInsertId()]. *)
Definition sql_insert_item (user_id : Z) (text : string) (quantity : Z)
    (unit description : string) (completed : bool) (now : Z)
    (d : database) : Z * database :=
  (next_item_id d,
   {| shopping_items :=
        shopping_items d ++ [new_row d user_id text quantity unit description completed now];
      users := users d;
      next_item_id := next_item_id d + 1;
      next_user_id := next_user_id d |}).

(** [SELECT ... FROM shopping_items WHERE id = :id], then [fetch()]. *)
Definition sql_select_by_id (id : Z) (d : database) : option item_row * database :=
  (List.find (fun r => i_id r =? id) (shopping_items d), d).

(** [SELECT id FROM shopping_items WHERE id = :id AND user_id = :user_id],
    then [fetch()]. *)
Definition sql_select_owned (id user_id : Z) (d : database) : option Z * database :=
  (option_map i_id
     (List.find (fun r => (i_id r =? id) && owned_by user_id r) (shopping_items d)), d).

(** [DELETE FROM shopping_items WHERE <cond>]; the result is [rowCount()]. *)
Definition sql_delete (cond : item_row -> bool) (d : database) : nat * database :=
  (length (filter (fun r => cond r = true) (shopping_items d)),
   set_items (filter (fun r => cond r = false) (shopping_items d)) d).

Definition option_Z_eqb (a b : option Z) : bool :=
  match a, b with
  | Some x, Some y => x =? y
  | None, None => true
  | _, _ => false
  end.

Definition item_row_eqb (a b : item_row) : bool :=
  (i_id a =? i_id b) && (i_user_id a =? i_user_id b)
  && String.eqb (i_text a) (i_text b) && (i_quantity a =? i_quantity b)
  && String.eqb (i_unit a) (i_unit b)
  && String.eqb (i_description a) (i_description b)
  && Bool.eqb (i_completed a) (i_completed b)
  && (i_added_at a =? i_added_at b)
  && option_Z_eqb (i_completed_at a) (i_completed_at b)
  && option_Z_eqb (i_updated_at a) (i_updated_at b).

(** [UPDATE shopping_items SET <set> WHERE <cond>]; the result is
    [rowCount()], which for MySQL counts the rows whose value changed. *)
Definition sql_update (cond : item_row -> bool) (set : item_row -> item_row)
    (d : database) : nat * database :=
  (length (filter (fun r => (cond r && negb (item_row_eqb (set r) r)) = true)
             (shopping_items d)),
   set_items (map (fun r => if cond r then set r else r) (shopping_items d)) d).

(** ** [items.php] *)

(** [if ($itemId)] on the [id] query parameter: absent, empty and "0" are
    false.  [req_id] is the integer the parameter spells, so [is_numeric]
    holds of every parameter that is present. *)
Definition truthy_id (id : option Z) : option Z :=
  match id with
  | Some i => if i =? 0 then None else Some i
  | None => None
  end.

Definition getCurrentUserId : php (option Z) :=
  fun w => (Val (option_map fst (php_session w)), w).

(** The number interpolated in ["{$deletedCount} items deleted successfully"]. *)
Definition count_message (n : nat) : string :=
  (NilZero.string_of_uint (Nat.to_uint n) ++ " items deleted successfully")%string.

Definition items_get (userId : Z) : php unit :=
  let* items := execute (sql_select_list userId) in
  sendJsonResponse (ItemsBody (map fetch_columns items)) 200.

Definition items_post (userId : Z) (r : request items_body) : php unit :=
  match req_body r with
  | None => sendJsonResponse (ErrorBody "Invalid JSON data") 400
  | Some data =>
      let text := trim (default "" (f_text (b_fields data))) in
      let quantity := default 1 (f_quantity (b_fields data)) in
      let unit := strval (default (MString "szt") (f_unit (b_fields data))) in
      let description := trim (default "" (f_description (b_fields data))) in
      let completed := default false (f_completed (b_fields data)) in
      if php_empty text then
        sendJsonResponse (ErrorBody "Item text is required") 400
      else if quantity <? 1 then
        sendJsonResponse (ErrorBody "Quantity must be at least 1") 400
      else
        let* itemId :=
          execute (sql_insert_item userId text quantity unit description
                     completed (req_now r)) in
        let* item := execute (sql_select_by_id itemId) in
        match item with
        | Some row => sendJsonResponse (ItemBody (fetch_columns row)) 201
        | None => sendJsonResponse (CompletedBody false) 201
        end
  end.

(** The [SET] clause [items.php] builds from the fields that are present;
    [completed] brings [completed_at = NOW()] or [completed_at = NULL] with
    it, and [updated_at = NOW()] closes every clause. *)
Definition items_set (text : option string) (quantity : option Z)
    (unit description : option string) (completed : option bool) (now : Z)
    (r : item_row) : item_row :=
  {| i_id := i_id r; i_user_id := i_user_id r;
     i_text := default (i_text r) text;
     i_quantity := default (i_quantity r) quantity;
     i_unit := default (i_unit r) unit;
     i_description := default (i_description r) description;
     i_completed := default (i_completed r) completed;
     i_added_at := i_added_at r;
     i_completed_at :=
       match completed with
       | Some true => Some now
       | Some false => None
       | None => i_completed_at r
       end;
     i_updated_at := Some now |}.

Definition no_fields (f : item_fields) : bool :=
  match f_text f, f_quantity f, f_unit f, f_description f, f_completed f with
  | None, None, None, None, None => true
  | _, _, _, _, _ => false
  end.

Definition items_put (userId : Z) (r : request items_body) : php unit :=
  match truthy_id (req_id r) with
  | None => sendJsonResponse (ErrorBody "Valid item ID is required") 400
  | Some itemId =>
      match req_body r with
      | None => sendJsonResponse (ErrorBody "Invalid JSON data") 400
      | Some data =>
          let* found := execute (sql_select_owned itemId userId) in
          match found with
          | None => sendJsonResponse (ErrorBody "Item not found") 404
          | Some _ =>
              let* text :=
                match f_text (b_fields data) with
                | Some t =>
                    if php_empty (trim t) then
                      sendJsonResponse (ErrorBody "Item text cannot be empty") 400
                    else ret (Some (trim t))
                | None => ret None
                end in
              let* quantity :=
                match f_quantity (b_fields data) with
                | Some q =>
                    if q <? 1 then
                      sendJsonResponse (ErrorBody "Quantity must be at least 1") 400
                    else ret (Some q)
                | None => ret None
                end in
              if no_fields (b_fields data) then
                sendJsonResponse (ErrorBody "No fields to update") 400
              else
                let* _ :=
                  execute (sql_update (fun row => i_id row =? itemId)
                             (items_set text quantity
                                (option_map strval (f_unit (b_fields data)))
                                (option_map trim (f_description (b_fields data)))
                                (f_completed (b_fields data)) (req_now r))) in
                sendJsonResponse (MessageBody "Item updated successfully") 200
          end
      end
  end.

Definition action_is (r : request items_body) (a : string) : bool :=
  match req_action r with
  | Some x => String.eqb x a
  | None => false
  end.

Definition items_delete (userId : Z) (r : request items_body) : php unit :=
  match truthy_id (req_id r) with
  | Some itemId =>
      let* n := execute (sql_delete (fun row => (i_id row =? itemId) && owned_by userId row)) in
      match n with
      | O => sendJsonResponse (ErrorBody "Item not found") 404
      | S _ => sendJsonResponse (MessageBody "Item deleted successfully") 200
      end
  | None =>
      if action_is r "remove_checked" then
        let* n := execute (sql_delete (fun row => owned_by userId row && i_completed row)) in
        sendJsonResponse (MessageBody (count_message n)) 200
      else if action_is r "clear" then
        let* n := execute (sql_delete (owned_by userId)) in
        sendJsonResponse (MessageBody (count_message n)) 200
      else sendJsonResponse (ErrorBody "Invalid delete action") 400
  end.

(** The [switch] on the request method; [put] is [case 'PUT'], where the
    two revisions of the script differ. *)
Definition items_switch (put : Z -> request items_body -> php unit)
    (userId : Z) (r : request items_body) : php unit :=
  if String.eqb (req_method r) "GET" then items_get userId
  else if String.eqb (req_method r) "POST" then items_post userId r
  else if String.eqb (req_method r) "PUT" then put userId r
  else if String.eqb (req_method r) "DELETE" then items_delete userId r
  else sendJsonResponse (ErrorBody "Method not allowed") 405.

(** The frame both revisions share: the session gate, the connection, and
    the [switch] inside [try]. *)
Definition items_script (put : Z -> request items_body -> php unit)
    (r : request items_body) : php unit :=
  let* user := getCurrentUserId in
  match user with
  | None => sendJsonResponse (ErrorBody "Authentication required") 401
  | Some userId =>
      let* _ := getDB in
      try_catch (items_switch put userId r)
        (fun _ => sendJsonResponse (ErrorBody "Database error occurred") 500)
  end.

Definition items_php : request items_body -> php unit := items_script items_put.

(** ** The revision of [items.php] with the bulk replace ([part_000]) *)

(** [UPDATE shopping_items SET updated_at = NOW(), k1 = ?, ..., kn = ?
     WHERE id = ? AND user_id = ?] over the keys of the request among text,
    quantity, unit, description and completed, bound to the values as
    submitted ([execute($values)] binds each as a string). *)
Definition part_000_set (f : item_fields) (now : Z) (r : item_row) : item_row :=
  {| i_id := i_id r; i_user_id := i_user_id r;
     i_text := default (i_text r) (f_text f);
     i_quantity := default (i_quantity r) (f_quantity f);
     i_unit := default (i_unit r) (option_map strval (f_unit f));
     i_description := default (i_description r) (f_description f);
     i_completed := default (i_completed r) (f_completed f);
     i_added_at := i_added_at r;
     i_completed_at := i_completed_at r;
     i_updated_at := Some now |}.

(** A statement the server cannot parse: [execute] throws. *)
Definition execute_malformed {A} : php A :=
  fun w =>
    match db_faults w with
    | Some msg :: rest => (Throw msg, set_faults rest w)
    | None :: rest =>
        (Throw "SQLSTATE[42000]: Syntax error or access violation", set_faults rest w)
    | [] => (Throw "SQLSTATE[42000]: Syntax error or access violation", w)
    end.

(** The single-item branch.  The body is not checked: on a body that does
    not decode, [array_intersect_key] receives [null] and raises a
    [TypeError], which no [catch] of the script handles.  With none of the
    five keys the statement reads [SET updated_at = NOW(),  = ? WHERE ...]. *)
Definition part_000_update (userId itemId : Z) (r : request items_body) : php unit :=
  match req_body r with
  | None => fun w => (Fatal, w)
  | Some data =>
      if no_fields (b_fields data) then execute_malformed
      else
        let* n :=
          execute (sql_update (fun row => (i_id row =? itemId) && owned_by userId row)
                     (part_000_set (b_fields data) (req_now r))) in
        match n with
        | O => sendJsonResponse (ErrorBody "Item not found") 404
        | S _ => sendJsonResponse (MessageBody "Item updated successfully") 200
        end
  end.

(** One turn of the validation loop: the error it sends, if any. *)
Definition validate_item (item : item_fields) : option string :=
  let text := trim (default "" (f_text item)) in
  let quantity := default 1 (f_quantity item) in
  if php_empty text then Some "Item text is required for all items"
  else if quantity <? 1 then Some "Quantity must be at least 1 for all items"
  else if negb (in_array (default (MString "") (f_unit item)) validUnits) then
    Some "Invalid unit for one or more items"
  else None.

Fixpoint validate_items (items : list item_fields) : php unit :=
  match items with
  | [] => ret tt
  | item :: rest =>
      match validate_item item with
      | Some msg => sendJsonResponse (ErrorBody msg) 400
      | None => validate_items rest
      end
  end.

(** The values the insert loop binds for one item.  The quantity is
    [intval($item['quantity'])] without a default: an absent quantity
    binds [intval(null)], which is 0. *)
Definition insert_one (userId now : Z) (item : item_fields)
    : database -> Z * database :=
  sql_insert_item userId
    (trim (default "" (f_text item)))
    (default 0 (f_quantity item))
    (strval (default (MString "szt") (f_unit item)))
    (trim (default "" (f_description item)))
    (default false (f_completed item))
    now.

Fixpoint insert_items (userId now : Z) (items : list item_fields) : php unit :=
  match items with
  | [] => ret tt
  | item :: rest =>
      let* _ := execute (insert_one userId now item) in
      insert_items userId now rest
  end.

Definition replace_list (userId : Z) (r : request items_body) : php unit :=
  match req_body r with
  | None => sendJsonResponse (ErrorBody "Invalid JSON data") 400
  | Some data =>
      let items := default [] (b_items data) in
      let* _ := validate_items items in
      try_catch
        (let* _ := beginTransaction in
         let* _ := execute (sql_delete (owned_by userId)) in
         let* _ := insert_items userId (req_now r) items in
         let* _ := commit in
         sendJsonResponse (MessageBody "List replaced successfully") 200)
        (fun msg =>
           let* _ := rollBack in
           sendJsonResponse (ErrorBody ("Failed to replace list: " ++ msg)%string) 500)
  end.

(** [case 'PUT'] of the revision: the single-item branch, the replace
    branch, and otherwise no [break], so control falls into
    [case 'DELETE']. *)
Definition part_000_put (userId : Z) (r : request items_body) : php unit :=
  match truthy_id (req_id r) with
  | Some itemId => part_000_update userId itemId r
  | None =>
      if action_is r "replace" then replace_list userId r
      else items_delete userId r
  end.

Definition part_000_php : request items_body -> php unit := items_script part_000_put.

(** ** [login.php], the registration script ([part_001]) and [logout.php] *)

(** [SELECT id, username, password FROM users WHERE username = :username],
    then [fetch()]. *)
Definition sql_select_user (username : string) (d : database) : option user_row * database :=
  (List.find (fun u => String.eqb (u_username u) username) (users d), d).

(** [INSERT INTO users (username, password, created_at) VALUES (...)]; the
    result is [lastInsertId()]. *)
Definition sql_insert_user (username password : string) (d : database) : Z * database :=
  (next_user_id d,
   {| shopping_items := shopping_items d;
      users := users d ++ [{| u_id := next_user_id d; u_username := username;
                              u_password := password |}];
      next_item_id := next_item_id d;
      next_user_id := next_user_id d + 1 |}).

Definition start_session (user_id : Z) (username : string) : php unit :=
  fun w => (Val tt, set_session (Some (user_id, username)) w).

Section Passwords.

(** The platform's [password_hash($password, PASSWORD_DEFAULT)] and
    [password_verify($password, $hash)]. *)
Variable password_hash : string -> string.
Variable password_verify : string -> string -> bool.

Definition login_php (r : request credentials) : php unit :=
  if negb (String.eqb (req_method r) "POST") then
    sendJsonResponse (ErrorBody "Invalid request method") 405
  else
    let username :=
      trim (default "" (match req_body r with Some c => c_username c | None => None end)) in
    let password :=
      default "" (match req_body r with Some c => c_password c | None => None end) in
    if php_empty username || php_empty password then
      sendJsonResponse (ErrorBody "Username and password are required") 400
    else
      try_catch
        (let* _ := getDB in
         let* user := execute (sql_select_user username) in
         match user with
         | None => sendJsonResponse (ErrorBody "Invalid username or password") 401
         | Some u =>
             if negb (password_verify password (u_password u)) then
               sendJsonResponse (ErrorBody "Invalid username or password") 401
             else
               let* _ := start_session (u_id u) (u_username u) in
               sendJsonResponse (UserBody "Login successful" (u_id u) (u_username u)) 200
         end)
        (fun msg => sendJsonResponse (ErrorBody ("Database error: " ++ msg)%string) 500).

Definition register_php (r : request credentials) : php unit :=
  if negb (String.eqb (req_method r) "POST") then
    sendJsonResponse (ErrorBody "Invalid request method") 405
  else
    match req_body r with
    | None => sendJsonResponse (ErrorBody "Invalid JSON input") 400
    | Some c =>
        let username := trim (default "" (c_username c)) in
        let password := default "" (c_password c) in
        if php_empty username || php_empty password then
          sendJsonResponse (ErrorBody "Username and password are required") 400
        else if (String.length password <? 8)%nat then
          sendJsonResponse (ErrorBody "Password must be at least 8 characters long") 400
        else
          try_catch
            (let* _ := getDB in
             let* existing := execute (sql_select_user username) in
             match existing with
             | Some _ => sendJsonResponse (ErrorBody "Username already exists") 409
             | None =>
                 let* userId :=
                   execute (sql_insert_user username (password_hash password)) in
                 let* _ := start_session userId username in
                 sendJsonResponse (UserBody "User registered successfully" userId username) 200
             end)
            (fun _ => sendJsonResponse (ErrorBody "Database error occurred") 500)
    end.

End Passwords.

Definition logout_php (r : request credentials) : php unit :=
  if negb (String.eqb (req_method r) "POST") then
    sendJsonResponse (ErrorBody "Invalid request method") 405
  else
    let* _ := (fun w => (Val tt, set_session None w)) in
    sendJsonResponse (MessageBody "Logout successful") 200.

(** ** [lista.js]: [PasswordStrength] *)

(** A JavaScript string is a sequence of UTF-16 code units. *)
Definition jsstring := list N.

Definition js (s : string) : jsstring := map N_of_ascii (list_ascii_of_string s).

Definition in_range (lo hi : N) (c : N) : bool := ((lo <=? c) && (c <=? hi))%N.

(** The class [[!,@,#,$,%,^,&,*,?,_,~]]: the commas are members too. *)
Definition special_chars : list N :=
  map N_of_ascii (list_ascii_of_string "!,@,#,$,%,^,&,*,?,_,~").

Record requirements := {
  minLength : nat;
  hasLowercase : bool;
  hasUppercase : bool;
  hasNumbers : bool;
  hasSpecial : bool
}.

Definition requirements_of (password : jsstring) : requirements :=
  {| minLength := 8;
     hasLowercase := existsb (in_range 97 122) password;
     hasUppercase := existsb (in_range 65 90) password;
     hasNumbers := existsb (in_range 48 57) password;
     hasSpecial := existsb (fun c => existsb (N.eqb c) special_chars) password |}.

(** Feedback texts, in UTF-8. *)
Definition msg_length : string := "Hasło powinno mieć co najmniej 8 znaków".
Definition msg_cases : string := "Dodaj wielkie i małe litery".
Definition msg_digits : string := "Dodaj cyfry".
Definition msg_special : string := "Dodaj znaki specjalne (!@#$%^&*?_~)".

(** One [if (...) strength += 1; else feedback.push(...)]. *)
Definition check (ok : bool) (msg : string) (acc : Z * list string) : Z * list string :=
  if ok then (fst acc + 1, snd acc) else (fst acc, snd acc ++ [msg]).

(** The local variables [strength] and [feedback] after the four checks. *)
Definition tally (password : jsstring) : Z * list string :=
  let req := requirements_of password in
  check (hasSpecial req) msg_special
    (check (hasNumbers req) msg_digits
       (check (hasLowercase req && hasUppercase req) msg_cases
          (check (minLength req <=? length password)%nat msg_length (0, [])))).

Definition strengthLevel (strength : Z) : string :=
  if 4 <=? strength then "strong"
  else if 3 <=? strength then "medium"
  else if 2 <=? strength then "weak"
  else "very-weak".

Record strength_report := {
  strength : string;
  feedback : string;
  report_requirements : requirements
}.

Definition checkStrength (password : jsstring) : strength_report :=
  let (score, notes) := tally password in
  {| strength := strengthLevel score;
     feedback :=
       match notes with
       | [] => "Mocne hasło!"
       | _ => String.concat ". " notes
       end;
     report_requirements := requirements_of password |}.

(** ** [lista.js]: [SessionManager] *)

Record userData := { user_id : Z; username : string }.

Record sessionData := {
  user : userData;
  timestamp : Z;
  rememberMe : bool
}.

(** What the client keeps in web storage: the JSON text of a session
    object, the JSON text of a user object, and the text of a boolean
    ([rememberMe.toString()]).  [JSON.stringify] followed by [JSON.parse]
    gives back the same object or boolean, so an entry also stands for the
    value [JSON.parse] yields on it; each of the three texts is non-empty,
    hence truthy. *)
Inductive stored :=
| StoredSession (d : sessionData)
| StoredUser (u : userData)
| StoredFlag (b : bool).

Record browser := {
  sessionStorage : gmap string stored;
  localStorage : gmap string stored
}.

Definition SESSION_KEY : string := "shopping_list_session".
Definition USER_KEY : string := "shopping_list_user".
Definition REMEMBER_ME_KEY : string := "remember_me".

Definition saveSession (userData : userData) (rememberMe : bool) (now : Z)
    (b : browser) : bool * browser :=
  let sessionData :=
    {| user := userData; timestamp := now; rememberMe := rememberMe |} in
  let b1 :=
    if rememberMe then
      {| sessionStorage := sessionStorage b;
         localStorage :=
           <[USER_KEY := StoredUser userData]>
             (<[SESSION_KEY := StoredSession sessionData]> (localStorage b)) |}
    else
      {| sessionStorage := <[SESSION_KEY := StoredSession sessionData]> (sessionStorage b);
         localStorage := localStorage b |} in
  (true,
   {| sessionStorage := sessionStorage b1;
      localStorage :=
        <[REMEMBER_ME_KEY := StoredFlag rememberMe]> (localStorage b1) |}).

(** [sessionStorage] is read first, then [localStorage]; the result is
    what [JSON.parse] yields on the entry found, or [null] ([None]).  Only
    [saveSession] writes under [SESSION_KEY], but whatever entry is there
    is parsed and returned. *)
Definition getSession (b : browser) : option stored :=
  match sessionStorage b !! SESSION_KEY with
  | Some v => Some v
  | None => localStorage b !! SESSION_KEY
  end.

(** [session ? session.user : null]; a user object and a boolean have no
    property [user], and [None] stands for [undefined] as well. *)
Definition getUser (b : browser) : option userData :=
  match getSession b with
  | Some (StoredSession d) => Some (user d)
  | _ => None
  end.

(** [localStorage.getItem(REMEMBER_ME_KEY) === 'true'] *)
Definition getRememberMe (b : browser) : bool :=
  match localStorage b !! REMEMBER_ME_KEY with
  | Some (StoredFlag flag) => flag
  | _ => false
  end.

Definition clearSession (b : browser) : bool * browser :=
  (true,
   {| sessionStorage := delete SESSION_KEY (sessionStorage b);
      localStorage :=
        delete REMEMBER_ME_KEY (delete USER_KEY (delete SESSION_KEY (localStorage b))) |}).

Definition oneWeek : Z := 7 * 24 * 60 * 60 * 1000.

(** [now] is [Date.now()], in milliseconds.  [!session] holds of [null]
    and of [false]; on a user object and on [true] the property
    [rememberMe] is [undefined]. *)
Definition isSessionValid (now : Z) (b : browser) : bool :=
  match getSession b with
  | None | Some (StoredFlag false) => false
  | Some (StoredSession session) =>
      if rememberMe session then now - timestamp session <? oneWeek
      else true
  | Some (StoredUser _) | Some (StoredFlag true) => true
  end.

(** ** [lista.js]: the requests [DatabaseModule] sends

    [apiRequest(endpoint, method, data)] with the query string of each
    endpoint; [now] is the time the server handles the request. *)

Definition no_item_fields : item_fields :=
  {| f_text := None; f_quantity := None; f_unit := None;
     f_description := None; f_completed := None |}.

Definition getShoppingList (now : Z) : request items_body :=
  {| req_method := "GET"; req_id := None; req_action := None;
     req_body := None; req_now := now |}.

Definition addItem (item : item_fields) (now : Z) : request items_body :=
  {| req_method := "POST"; req_id := None; req_action := None;
     req_body := Some {| b_fields := item; b_items := None |};
     req_now := now |}.

Definition updateItem (id : Z) (updates : item_fields) (now : Z) : request items_body :=
  {| req_method := "PUT"; req_id := Some id; req_action := None;
     req_body := Some {| b_fields := updates; b_items := None |};
     req_now := now |}.

Definition clearList (now : Z) : request items_body :=
  {| req_method := "DELETE"; req_id := None; req_action := Some "clear";
     req_body := None; req_now := now |}.

(** [replaceShoppingList(items)] sends [{ items }]; [items] is [None] for
    a body without the key. *)
Definition replaceShoppingList (items : option (list item_fields)) (now : Z)
    : request items_body :=
  {| req_method := "PUT"; req_id := None; req_action := Some "replace";
     req_body := Some {| b_fields := no_item_fields; b_items := items |};
     req_now := now |}.

Definition loginUser (username password : string) (now : Z) : request credentials :=
  {| req_method := "POST"; req_id := None; req_action := None;
     req_body := Some {| c_username := Some username; c_password := Some password |};
     req_now := now |}.

(** [toggleItem] sends the negation of the flag the client holds. *)
Definition toggle (id : Z) (completed : bool) (now : Z) : request items_body :=
  updateItem id
    {| f_text := None; f_quantity := None; f_unit := None;
       f_description := None; f_completed := Some (negb completed) |} now.

(** ** Vocabulary of the properties *)

(** The caller holds a session and the connection to the store opens. *)
Definition authenticated (w : world) (userId : Z) : Prop :=
  option_map fst (php_session w) = Some userId /\ db_connect_error w = None.

Definition generic_500 : php unit :=
  sendJsonResponse (ErrorBody "Database error occurred") 500.

(** Row [a] is listed before row [b]: an incomplete row before a completed
    one, and within a group the row added more recently first. *)
Definition listed_before (a b : item_row) : Prop :=
  (i_completed a = false /\ i_completed b = true)
  \/ (i_completed a = i_completed b /\ i_added_at b <= i_added_at a).


(** An item the validation loop of the replace branch lets through: its
    text, trimmed, is not empty for PHP's [empty] (neither "" nor "0"), its
    quantity (1 when absent) is at least 1, and its unit is one of the
    seven strings or the boolean [true], which [==] takes for equal to
    each of them. *)
Definition item_accepted (item : item_fields) : Prop :=
  php_empty (trim (default "" (f_text item))) = false
  /\ 1 <= default 1 (f_quantity item)
  /\ (f_unit item = Some (MBool true)
      \/ exists unit, f_unit item = Some (MString unit) /\ In unit validUnits).

(** The row the insert loop stores for an item under the identifier [id]. *)
Definition inserted_row (userId now id : Z) (item : item_fields) : item_row :=
  {| i_id := id; i_user_id := userId;
     i_text := trim (default "" (f_text item));
     i_quantity := default 0 (f_quantity item);
     i_unit := strval (default (MString "szt") (f_unit item));
     i_description := trim (default "" (f_description item));
     i_completed := default false (f_completed item);
     i_added_at := now;
     i_completed_at := None; i_updated_at := None |}.

(** The rows stored for a batch, with consecutive identifiers from [next]. *)
Fixpoint replaced_rows (userId now next : Z) (items : list item_fields) : list item_row :=
  match items with
  | [] => []
  | item :: rest =>
      inserted_row userId now next item :: replaced_rows userId now (next + 1) rest
  end.

(** The AUTO_INCREMENT counter of [shopping_items] is above every
    identifier in the table. *)
Definition fresh_counter (d : database) : Prop :=
  Forall (fun r => i_id r < next_item_id d) (shopping_items d).

(** The row the add request stores, with the defaults of the absent
    fields. *)
Definition added_row (d : database) (userId now : Z) (item : item_fields) : item_row :=
  new_row d userId
    (trim (default "" (f_text item)))
    (default 1 (f_quantity item))
    (strval (default (MString "szt") (f_unit item)))
    (trim (default "" (f_description item)))
    (default false (f_completed item))
    now.

(** The answer of a successful replace. *)
Definition replaced_ok : response :=
  {| status := 200; content := MessageBody "List replaced successfully" |}.

(** ** Sample data *)

Definition sample_row (id user_id : Z) (text : string) (completed : bool)
    (added_at : Z) : item_row :=
  {| i_id := id; i_user_id := user_id; i_text := text; i_quantity := 1;
     i_unit := "szt"; i_description := ""; i_completed := completed;
     i_added_at := added_at;
     i_completed_at := if completed then Some added_at else None;
     i_updated_at := None |}.

(** A store with three items of user 7 and one of user 8, and the session
    of user 7 ("alice"). *)
Definition sample_world : world :=
  {| db := {| shopping_items :=
                [sample_row 1 7 "Milk" false 100; sample_row 2 8 "Salt" false 110;
                 sample_row 3 7 "Eggs" true 120; sample_row 4 7 "Tea" false 130];
              users := [{| u_id := 7; u_username := "alice"; u_password := "h1" |};
                        {| u_id := 8; u_username := "bob"; u_password := "h2" |}];
              next_item_id := 5; next_user_id := 9 |};
     php_session := Some (7, "alice");
     db_connect_error := None;
     db_faults := [];
     transaction := None |}.


Definition sample_item (text : string) (quantity : option Z) (unit : string) : item_fields :=
  {| f_text := Some text; f_quantity := quantity; f_unit := Some (MString unit);
     f_description := None; f_completed := None |}.

Definition good_batch : list item_fields :=
  [sample_item "Bread" (Some 2) "szt"; sample_item " Rice " (Some 1) "kg"].

(** The second item has quantity 0. *)
Definition bad_batch : list item_fields :=
  [sample_item "Bread" (Some 2) "szt"; sample_item "Rice" (Some 0) "kg"].

(** Two items the validation loop lets through: the first gives no
    quantity, the unit of the second is the JSON value [true]. *)
Definition unvalidated_batch : list item_fields :=
  [sample_item "Flour" None "kg";
   {| f_text := Some "Oil"; f_quantity := Some 1; f_unit := Some (MBool true);
      f_description := None; f_completed := None |}].

(** An add request with the text only. *)
Definition text_only (text : string) : item_fields :=
  {| f_text := Some text; f_quantity := None; f_unit := None;
     f_description := None; f_completed := None |}.

(** The table holds a row with this identifier that belongs to the user. *)
Definition owns (d : database) (userId id : Z) : Prop :=
  Exists (fun r => i_id r = id /\ i_user_id r = userId) (shopping_items d).

(** An update that changes the completion flag only. *)
Definition completed_only (completed : bool) : item_fields :=
  {| f_text := None; f_quantity := None; f_unit := None;
     f_description := None; f_completed := Some completed |}.

(** The fields [items.php] takes for valid in an update: a text, when
    present, that is not empty after trimming, and a quantity, when
    present, of at least 1. *)
Definition update_accepted (updates : item_fields) : Prop :=
  match f_text updates with
  | Some t => php_empty (trim t) = false
  | None => True
  end
  /\ match f_quantity updates with
     | Some q => 1 <= q
     | None => True
     end.

(** The [SET] clause [items.php] runs for accepted fields. *)
Definition items_update (updates : item_fields) (now : Z) : item_row -> item_row :=
  items_set (option_map trim (f_text updates)) (f_quantity updates)
    (option_map strval (f_unit updates)) (option_map trim (f_description updates))
    (f_completed updates) now.

Definition updated_ok : response :=
  {| status := 200; content := MessageBody "Item updated successfully" |}.

Definition not_found : response :=
  {| status := 404; content := ErrorBody "Item not found" |}.

(** A storage fault as the driver words it. *)
Definition gone_away : string :=
  "SQLSTATE[HY000]: General error: 2006 MySQL server has gone away".

(** One point of the score. *)
Definition point (met : bool) : Z := if met then 1 else 0.

(** The complaint for a requirement that is not met. *)
Definition complaint (met : bool) (msg : string) : list string :=
  if met then [] else [msg].

Definition empty_browser : browser :=
  {| sessionStorage := ∅; localStorage := ∅ |}.

Definition alice : userData := {| user_id := 7; username := "alice" |}.

(** ** Further requests of [DatabaseModule] *)

Definition deleteItem (id : Z) (now : Z) : request items_body :=
  {| req_method := "DELETE"; req_id := Some id; req_action := None;
     req_body := None; req_now := now |}.

Definition removeCheckedItems (now : Z) : request items_body :=
  {| req_method := "DELETE"; req_id := None; req_action := Some "remove_checked";
     req_body := None; req_now := now |}.

Definition registerUser (username password : string) (now : Z) : request credentials :=
  {| req_method := "POST"; req_id := None; req_action := None;
     req_body := Some {| c_username := Some username; c_password := Some password |};
     req_now := now |}.

(** [logoutUser] sends no body. *)
Definition logoutUser (now : Z) : request credentials :=
  {| req_method := "POST"; req_id := None; req_action := None;
     req_body := None; req_now := now |}.

(** The same request sent with another method. *)
Definition with_method {B} (method : string) (r : request B) : request B :=
  {| req_method := method; req_id := req_id r; req_action := req_action r;
     req_body := req_body r; req_now := req_now r |}.

(** ** Further vocabulary *)

(** The rows that do not belong to the user. *)
Definition others (userId : Z) (rows : list item_row) : list item_row :=
  filter (fun r => owned_by userId r = false) rows.

(** The rows that belong to the user. *)
Definition owned (userId : Z) (rows : list item_row) : list item_row :=
  filter (fun r => owned_by userId r = true) rows.

(** The store after a request differs from the store before at most in
    the rows of the user and in the counter of the item identifiers. *)
Definition same_for_others (userId : Z) (d d' : database) : Prop :=
  others userId (shopping_items d') = others userId (shopping_items d)
  /\ users d' = users d
  /\ next_user_id d' = next_user_id d.

(** The snapshot of an open transaction, if any, agrees with the table on
    the rows of the other users. *)
Definition snapshot_agrees (userId : Z) (w : world) : Prop :=
  match transaction w with
  | Some rows => others userId rows = others userId (shopping_items (db w))
  | None => True
  end.

(** A script fragment that, from any world, leaves the rows of the other
    users and the table of users as they are, whatever its outcome. *)
Definition respects {A} (userId : Z) (m : php A) : Prop :=
  forall w, snapshot_agrees userId w ->
    same_for_others userId (db w) (db (snd (m w)))
    /\ snapshot_agrees userId (snd (m w)).

(** The same, from the worlds that satisfy [P]. *)
Definition respects_on {A} (P : world -> Prop) (userId : Z) (m : php A) : Prop :=
  forall w, P w -> snapshot_agrees userId w ->
    same_for_others userId (db w) (db (snd (m w)))
    /\ snapshot_agrees userId (snd (m w)).

(** [id] is the primary key of [shopping_items]. *)
Definition unique_ids (d : database) : Prop :=
  NoDup (map i_id (shopping_items d)).

(** [username] is a unique key of [users]. *)
Definition unique_usernames (d : database) : Prop :=
  NoDup (map u_username (users d)).

Definition deleted_ok : response :=
  {| status := 200; content := MessageBody "Item deleted successfully" |}.

Definition unauthorized : response :=
  {| status := 401; content := ErrorBody "Authentication required" |}.

Definition invalid_credentials : response :=
  {| status := 401; content := ErrorBody "Invalid username or password" |}.

(** A hash that verifies, to run the scripts on: the password behind a
    marker. *)
Definition toy_hash (password : string) : string := ("$toy$" ++ password)%string.

Definition toy_verify (password hash : string) : bool :=
  String.eqb hash (toy_hash password).

(** ** [lista.js]: [Utils.escapeHtml] *)

(** The replacement of one code unit: the keys of [map] are the ampersand
    (38), the angle brackets (60, 62), the double quote (34) and the
    apostrophe (39). *)
Definition escape_char (c : N) : jsstring :=
  if (c =? 38)%N then js "&amp;"
  else if (c =? 60)%N then js "&lt;"
  else if (c =? 62)%N then js "&gt;"
  else if (c =? 34)%N then js "&quot;"
  else if (c =? 39)%N then js "&#039;"
  else [c].

(** [text.replace] over the class of these five characters, global: every
    match is replaced by its entry in [map]. *)
Definition escapeHtml (text : jsstring) : jsstring := flat_map escape_char text.

(** The code units with a meaning in markup that [escapeHtml] replaces. *)
Definition markup_char (c : N) : bool :=
  ((c =? 38) || (c =? 60) || (c =? 62) || (c =? 34) || (c =? 39))%N.

(** ** [lista.js]: the login lockout of [ShoppingListApp] *)

Record login_guard := {
  failedLoginAttempts : Z;
  lockoutUntil : Z
}.

Definition MAX_LOGIN_ATTEMPTS : Z := 5.
Definition LOCKOUT_TIME : Z := 5 * 60 * 1000.

(** The state the module starts with. *)
Definition initial_guard : login_guard :=
  {| failedLoginAttempts := 0; lockoutUntil := 0 |}.

(** [isLockedOut()], with [now] for [Date.now()]: the answer and the
    guard it leaves (the counter is reset once the lockout has passed). *)
Definition isLockedOut (now : Z) (g : login_guard) : bool * login_guard :=
  if MAX_LOGIN_ATTEMPTS <=? failedLoginAttempts g then
    if now <? lockoutUntil g then (true, g)
    else (false, {| failedLoginAttempts := 0; lockoutUntil := lockoutUntil g |})
  else (false, g).

(** One call of [login()], as far as the guard goes: the time of the call,
    whether the form holds a username and a password, whether
    [DatabaseModule.loginUser] resolves, and the time at which its failure
    is caught. *)
Record login_call := {
  call_now : Z;
  call_filled : bool;
  call_resolves : bool;
  call_caught_at : Z
}.

Inductive login_outcome := NotSent | LoggedIn | Refused.

Definition login (c : login_call) (g : login_guard) : login_outcome * login_guard :=
  let (locked, g1) := isLockedOut (call_now c) g in
  if locked then (NotSent, g1)
  else if negb (call_filled c) then (NotSent, g1)
  else if call_resolves c then
    (LoggedIn, {| failedLoginAttempts := 0; lockoutUntil := lockoutUntil g1 |})
  else
    let failed := failedLoginAttempts g1 + 1 in
    if MAX_LOGIN_ATTEMPTS <=? failed then
      (Refused, {| failedLoginAttempts := failed;
                   lockoutUntil := call_caught_at c + LOCKOUT_TIME |})
    else (Refused, {| failedLoginAttempts := failed; lockoutUntil := lockoutUntil g1 |}).

(** The guard after a sequence of calls. *)
Definition after_logins (calls : list login_call) (g : login_guard) : login_guard :=
  fold_left (fun g c => snd (login c g)) calls g.

(** A call with the form filled that the server refuses. *)
Definition refused_call (c : login_call) : Prop :=
  call_filled c = true /\ call_resolves c = false.

(** ** [lista.js]: the earlier [SessionManager] (lines 1217-1340)

    [saveSession] also removes the entry of the storage it does not write,
    and [isSessionValid] reads the stored preference, not the flag of the
    entry.  [getSession], [getRememberMe] and [clearSession] are the same
    text. *)

Module SessionManager2.

Definition saveSession (userData : userData) (rememberMe : bool) (now : Z)
    (b : browser) : bool * browser :=
  let sessionData :=
    {| user := userData; timestamp := now; rememberMe := rememberMe |} in
  let b1 :=
    if rememberMe then
      {| sessionStorage := delete SESSION_KEY (sessionStorage b);
         localStorage :=
           <[USER_KEY := StoredUser userData]>
             (<[SESSION_KEY := StoredSession sessionData]> (localStorage b)) |}
    else
      {| sessionStorage := <[SESSION_KEY := StoredSession sessionData]> (sessionStorage b);
         localStorage := delete SESSION_KEY (localStorage b) |} in
  (true,
   {| sessionStorage := sessionStorage b1;
      localStorage :=
        <[REMEMBER_ME_KEY := StoredFlag rememberMe]> (localStorage b1) |}).

(** On a user object and on [true] the property [timestamp] is
    [undefined], the difference is [NaN], and the comparison is false. *)
Definition isSessionValid (now : Z) (b : browser) : bool :=
  match getSession b with
  | None | Some (StoredFlag false) => false
  | Some (StoredSession session) =>
      if getRememberMe b then now - timestamp session <? oneWeek
      else true
  | Some (StoredUser _) | Some (StoredFlag true) => negb (getRememberMe b)
  end.

End SessionManager2.

(** Calls for the samples: a refusal caught at [t], and a call at [t] that
    the server accepts. *)
Definition refusal_at (t : Z) : login_call :=
  {| call_now := t; call_filled := true; call_resolves := false; call_caught_at := t + 1 |}.

Definition attempt_at (t : Z) : login_call :=
  {| call_now := t; call_filled := true; call_resolves := true; call_caught_at := t + 1 |}.

Definition bob : userData := {| user_id := 8; username := "bob" |}.

(** ** [lista.js]: the form checks of [register]

    The notification [register] shows instead of sending the form, if any;
    [username] is the trimmed value of the field. *)
Definition register_form_error (username password confirm : jsstring) : option string :=
  if bool_decide (username = []) || bool_decide (password = []) then
    Some "Login i hasło są wymagane"
  else if (length username <? 3)%nat then
    Some "Login musi mieć co najmniej 3 znaki"
  else if negb (bool_decide (password = confirm)) then
    Some "Hasła nie są identyczne"
  else if String.eqb (strength (checkStrength password)) "very-weak"
          || String.eqb (strength (checkStrength password)) "weak" then
    Some "Hasło jest zbyt słabe"
  else None.

(** ** The storage faults a request meets

    The first fault among the next [n] statements, if any: the statement
    that meets it throws, and the ones after it are never run. *)
Fixpoint first_fault (n : nat) (faults : list (option string)) : option string :=
  match n, faults with
  | S _, Some msg :: _ => Some msg
  | S n', None :: rest => first_fault n' rest
  | _, _ => None
  end.

(** A batch of two accepted items meets a fault at its second INSERT. *)
Definition fault_at_second_insert : world :=
  set_faults [None; None; Some gone_away] sample_world.
(** * Properties *)

(** ** Running a script for an authenticated caller *)

Lemma items_script_authenticated put r w userId :
  authenticated w userId ->
  items_script put r w = try_catch (items_switch put userId r) (fun _ => generic_500) w.
Proof.
  intros [Hs Hc].
  unfold items_script, bind, getCurrentUserId, getDB.
  rewrite Hs, Hc. reflexivity.
Qed.

Lemma execute_no_faults {A} (stmt : database -> A * database) w :
  db_faults w = [] ->
  execute stmt w = (Val (fst (stmt (db w))), set_db (snd (stmt (db w))) w).
Proof.
  intros H. unfold execute. rewrite H. destruct (stmt (db w)); reflexivity.
Qed.

Lemma set_db_same w : set_db (db w) w = w.
Proof. destruct w; reflexivity. Qed.

Lemma set_items_same d : set_items (shopping_items d) d = d.
Proof. destruct d; reflexivity. Qed.

(** ** Listing: [ORDER BY completed, added_at DESC] *)

Lemma list_order_spec a b : list_order a b = true <-> listed_before a b.
Proof.
  unfold list_order, listed_before.
  destruct (i_completed a), (i_completed b); rewrite ?Z.leb_le;
    intuition congruence.
Qed.

Lemma list_order_total a b : list_order a b = false -> list_order b a = true.
Proof.
  unfold list_order.
  destruct (i_completed a), (i_completed b); rewrite ?Z.leb_le, ?Z.leb_gt;
    try congruence; lia.
Qed.

Lemma listed_before_trans a b c :
  listed_before a b -> listed_before b c -> listed_before a c.
Proof.
  unfold listed_before.
  intros [[Ha Hb] | [Hab H1]] [[Hb' Hc] | [Hbc H2]].
  - congruence.
  - left. split; congruence.
  - left. split; congruence.
  - right. split; [congruence | lia].
Qed.

Lemma order_insert_perm r l : Permutation (order_insert r l) (r :: l).
Proof.
  induction l as [| x l IH]; simpl.
  - reflexivity.
  - destruct (list_order r x).
    + reflexivity.
    + rewrite IH. apply perm_swap.
Qed.

Lemma order_by_perm l : Permutation (order_by l) l.
Proof.
  induction l as [| r l IH]; simpl.
  - reflexivity.
  - rewrite order_insert_perm. apply perm_skip, IH.
Qed.

Lemma order_insert_sorted r l :
  Sorted listed_before l -> Sorted listed_before (order_insert r l).
Proof.
  induction l as [| x l IH]; simpl; intros Hs.
  - repeat constructor.
  - destruct (list_order r x) eqn:E.
    + constructor; [assumption |].
      constructor. apply list_order_spec, E.
    + apply Sorted_inv in Hs as [Hs Hhd].
      constructor; [apply IH, Hs |].
      destruct l as [| y l]; simpl.
      * constructor. apply list_order_spec, list_order_total, E.
      * destruct (list_order r y).
        -- constructor. apply list_order_spec, list_order_total, E.
        -- constructor. apply HdRel_inv in Hhd. exact Hhd.
Qed.

Lemma order_by_sorted l : StronglySorted listed_before (order_by l).
Proof.
  apply Sorted_StronglySorted.
  - intros a b c. apply listed_before_trans.
  - induction l as [| r l IH]; simpl.
    + constructor.
    + apply order_insert_sorted, IH.
Qed.

(** C7: for an authenticated caller and a working store, the list request
    answers 200 with exactly the caller's rows (a permutation of the rows of
    the table whose [user_id] is the caller's), incomplete rows first and,
    within each group, the most recently added first; the store is left as
    it was. *)
Theorem list_items_owned_and_ordered put w userId now :
  authenticated w userId ->
  db_faults w = [] ->
  exists rows,
    run (items_script put (getShoppingList now)) w
      = ({| status := 200; content := ItemsBody (map fetch_columns rows) |}, w)
    /\ Permutation rows
         (filter (fun r => owned_by userId r = true) (shopping_items (db w)))
    /\ (forall r, In r rows <-> In r (shopping_items (db w)) /\ i_user_id r = userId)
    /\ StronglySorted listed_before rows.
Proof.
  intros Hauth Hf.
  exists (order_by (filter (fun r => owned_by userId r = true) (shopping_items (db w)))).
  split; [| split; [apply order_by_perm | split; [| apply order_by_sorted]]].
  - unfold run. rewrite (items_script_authenticated _ _ _ _ Hauth).
    unfold try_catch, items_switch, getShoppingList; simpl.
    unfold items_get, bind. rewrite execute_no_faults by exact Hf.
    simpl. rewrite set_db_same. reflexivity.
  - intros r. rewrite <- !list_elem_of_In.
    rewrite (order_by_perm _), list_elem_of_filter.
    unfold owned_by. rewrite Z.eqb_eq. tauto.
Qed.

Lemma list_items_owned_and_ordered_witness :
  exists rows,
    run (items_php (getShoppingList 200)) sample_world
      = ({| status := 200; content := ItemsBody (map fetch_columns rows) |}, sample_world)
    /\ Permutation rows
         (filter (fun r => owned_by 7 r = true) (shopping_items (db sample_world)))
    /\ (forall r, In r rows <-> In r (shopping_items (db sample_world)) /\ i_user_id r = 7)
    /\ StronglySorted listed_before rows.
Proof.
  apply (list_items_owned_and_ordered items_put sample_world 7 200).
  - split; reflexivity.
  - reflexivity.
Defined.

Example list_items_sample :
  fst (run (items_php (getShoppingList 200)) sample_world)
  = {| status := 200;
       content := ItemsBody (map fetch_columns
                    [sample_row 4 7 "Tea" false 130; sample_row 1 7 "Milk" false 100;
                     sample_row 3 7 "Eggs" true 120]) |}.
Proof. reflexivity. Qed.

(** ** Replacing the list *)

(** What the loose [in_array] takes for a valid unit: the seven strings,
    and the boolean [true]. *)
Lemma in_array_validUnits v :
  in_array v validUnits = true
  <-> v = MBool true \/ exists unit, v = MString unit /\ In unit validUnits.
Proof.
  destruct v as [s | [|]].
  - unfold in_array, loose_eq. rewrite existsb_exists. split.
    + intros [x [Hin Heq]]. apply String.eqb_eq in Heq. subst x.
      right. exists s. split; [reflexivity | exact Hin].
    + intros [H | (unit & Heq & Hin)]; [discriminate |].
      injection Heq as ->. exists unit. split; [exact Hin | apply String.eqb_refl].
  - split; [intros _; left; reflexivity | intros _; reflexivity].
  - split; [discriminate | intros [H | (unit & H & _)]; discriminate].
Qed.

(** A value the loose [in_array] rejects does not spell one of the seven
    units when it is stored. *)
Lemma in_array_rejected v : in_array v validUnits = false -> ~ In (strval v) validUnits.
Proof.
  intros Hv Hin. destruct v as [s | [|]].
  - assert (H : in_array (MString s) validUnits = true)
      by (apply in_array_validUnits; right; exists s; split; [reflexivity | exact Hin]).
    congruence.
  - discriminate Hv.
  - simpl in Hin. intuition discriminate.
Qed.

Lemma validate_item_accepted item : validate_item item = None <-> item_accepted item.
Proof.
  unfold validate_item, item_accepted.
  destruct (php_empty (trim (default "" (f_text item)))).
  - split; [discriminate | intros [H _]; discriminate].
  - destruct (default 1 (f_quantity item) <? 1) eqn:Eq.
    + apply Z.ltb_lt in Eq. split; [discriminate | intros (_ & H & _); lia].
    + apply Z.ltb_ge in Eq.
      destruct (in_array (default (MString "") (f_unit item)) validUnits) eqn:Eu;
        cbn [negb].
      * apply in_array_validUnits in Eu.
        split; [intros _ | reflexivity].
        split; [reflexivity |]. split; [exact Eq |].
        destruct (f_unit item) as [v |].
        -- change (default (MString "") (Some v)) with v in Eu.
           destruct Eu as [-> | (unit & -> & Hin)]; [left | right; exists unit]; auto.
        -- change (default (MString "") None) with (MString "") in Eu.
           destruct Eu as [H | (unit & H & Hin)]; [discriminate |].
           injection H as <-. simpl in Hin. intuition discriminate.
      * split; [discriminate |].
        intros (_ & _ & H).
        assert (Ht : in_array (default (MString "") (f_unit item)) validUnits = true).
        { apply in_array_validUnits.
          destruct H as [-> | (unit & -> & Hin)]; [left | right; exists unit]; auto. }
        congruence.
Qed.

Lemma validate_items_pass items w :
  Forall item_accepted items -> validate_items items w = (Val tt, w).
Proof.
  induction 1 as [| item rest Hitem _ IH]; simpl.
  - reflexivity.
  - apply validate_item_accepted in Hitem. rewrite Hitem. exact IH.
Qed.

Lemma validate_items_reject items w :
  Exists (fun item => ~ item_accepted item) items ->
  exists msg,
    validate_items items w = (Exit {| status := 400; content := ErrorBody msg |}, w).
Proof.
  induction 1 as [item rest Hitem | item rest _ IH]; simpl.
  - destruct (validate_item item) as [msg |] eqn:E.
    + exists msg. reflexivity.
    + apply validate_item_accepted in E. contradiction.
  - destruct (validate_item item) as [msg |].
    + exists msg. reflexivity.
    + exact IH.
Qed.

(** The validation loop sends a response or falls through; it never touches
    the world. *)
Lemma validate_items_cases items w :
  validate_items items w = (Val tt, w)
  \/ exists msg,
       validate_items items w = (Exit {| status := 400; content := ErrorBody msg |}, w).
Proof.
  induction items as [| item rest IH]; simpl.
  - left. reflexivity.
  - destruct (validate_item item) as [msg |].
    + right. exists msg. reflexivity.
    + exact IH.
Qed.

Lemma insert_one_row userId now item d :
  insert_one userId now item d
  = (next_item_id d,
     {| shopping_items := shopping_items d ++ [inserted_row userId now (next_item_id d) item];
        users := users d;
        next_item_id := next_item_id d + 1;
        next_user_id := next_user_id d |}).
Proof. reflexivity. Qed.

(** With a working store the insert loop appends one row per item. *)
Lemma insert_items_no_faults userId now items : forall w,
  db_faults w = [] ->
  insert_items userId now items w
  = (Val tt,
     set_db {| shopping_items :=
                 shopping_items (db w) ++ replaced_rows userId now (next_item_id (db w)) items;
               users := users (db w);
               next_item_id := next_item_id (db w) + Z.of_nat (length items);
               next_user_id := next_user_id (db w) |} w).
Proof.
  induction items as [| item rest IH]; intros w Hf.
  - simpl. unfold ret. rewrite app_nil_r, Z.add_0_r.
    destruct w as [[] ? ? ? ?]; reflexivity.
  - cbn [insert_items]. unfold bind.
    rewrite execute_no_faults by exact Hf.
    rewrite insert_one_row. cbn [fst snd].
    rewrite IH by (destruct w; exact Hf).
    f_equal. destruct w as [d s c f t]; unfold set_db; cbn.
    f_equal. f_equal.
    + rewrite <- app_assoc. reflexivity.
    + lia.
Qed.

(** Whatever faults are pending, a statement returns or throws, and leaves
    the open transaction as it is. *)
Lemma execute_outcome {A} (stmt : database -> A * database) w :
  transaction (snd (execute stmt w)) = transaction w
  /\ ((exists a, fst (execute stmt w) = Val a)
      \/ (exists msg, fst (execute stmt w) = Throw msg)).
Proof.
  unfold execute.
  destruct (db_faults w) as [| [msg |] rest]; try destruct (stmt (db w)); simpl;
    eauto.
Qed.

Lemma insert_items_outcome userId now items : forall w,
  transaction (snd (insert_items userId now items w)) = transaction w
  /\ (fst (insert_items userId now items w) = Val tt
      \/ (exists msg, fst (insert_items userId now items w) = Throw msg)).
Proof.
  induction items as [| item rest IH]; intros w.
  - simpl. auto.
  - cbn [insert_items]. unfold bind.
    destruct (execute_outcome (insert_one userId now item) w) as [Ht [[a Ha] | [msg Hm]]];
      destruct (execute (insert_one userId now item) w) as [o w1];
      simpl in Ht, Ha || simpl in Ht, Hm; subst o.
    + destruct (IH w1) as [Ht1 H1]. rewrite Ht1, Ht. auto.
    + simpl. eauto.
Qed.

(** The replace branch either commits and reports success, or rejects or
    fails with the rows of the table as they were before the request. *)
Lemma replace_list_outcome userId items now w :
  exists r w',
    replace_list userId (replaceShoppingList items now) w = (Exit r, w')
    /\ (r = replaced_ok \/ (status r <> 200 /\ shopping_items (db w') = shopping_items (db w))).
Proof.
  unfold replace_list, replaceShoppingList; cbn [req_body b_items req_now].
  set (batch := default [] items).
  unfold bind at 1.
  destruct (validate_items_cases batch w) as [Hv | [msg Hv]]; rewrite Hv.
  2: { eexists _, w. split; [reflexivity |]. right. simpl. split; [lia | reflexivity]. }
  unfold try_catch, bind, beginTransaction.
  set (w0 := set_transaction (Some (shopping_items (db w))) w).
  destruct (execute_outcome (sql_delete (owned_by userId)) w0) as [Ht [[a Ha] | [m Hm]]];
    destruct (execute (sql_delete (owned_by userId)) w0) as [o w1];
    simpl in Ht, Ha || simpl in Ht, Hm; subst o.
  - destruct (insert_items_outcome userId now batch w1) as [Ht2 [Hi | [m Hi]]];
      destruct (insert_items userId now batch w1) as [o w2]; simpl in Ht2, Hi; subst o.
    + unfold commit, sendJsonResponse. eexists _, _. split; [reflexivity |].
      left. reflexivity.
    + unfold rollBack. rewrite Ht2, Ht. subst w0. cbn [transaction set_transaction].
      unfold sendJsonResponse. eexists _, _. split; [reflexivity |].
      right. simpl. split; [lia | reflexivity].
  - unfold rollBack. rewrite Ht. subst w0. cbn [transaction set_transaction].
    unfold sendJsonResponse. eexists _, _. split; [reflexivity |].
    right. simpl. split; [lia | reflexivity].
Qed.

Lemma part_000_replace_run w userId items now :
  authenticated w userId ->
  run (part_000_php (replaceShoppingList items now)) w
  = run (replace_list userId (replaceShoppingList items now)) w.
Proof.
  intros Hauth. unfold run, part_000_php.
  rewrite (items_script_authenticated _ _ _ _ Hauth).
  unfold try_catch, items_switch, part_000_put; simpl.
  destruct (replace_list_outcome userId items now w) as (r & w' & H & _).
  rewrite H. reflexivity.
Qed.

Lemma filter_owned_others userId (l : list item_row) :
  filter (fun r => owned_by userId r = true)
    (filter (fun r => owned_by userId r = false) l) = [].
Proof.
  induction l as [| r l IH]; [reflexivity |].
  destruct (owned_by userId r) eqn:E.
  - rewrite (filter_cons_False _ r l) by congruence. exact IH.
  - rewrite (filter_cons_True _ r l) by exact E.
    rewrite filter_cons_False by congruence. exact IH.
Qed.

Lemma filter_owned_replaced userId now items : forall next,
  filter (fun r => owned_by userId r = true) (replaced_rows userId now next items)
  = replaced_rows userId now next items.
Proof.
  induction items as [| item rest IH]; intros next; [reflexivity |].
  cbn [replaced_rows]. rewrite filter_cons_True.
  - rewrite IH. reflexivity.
  - unfold owned_by, inserted_row; cbn. apply Z.eqb_refl.
Qed.

(** A batch with an item the loop does not let through is answered 400,
    and the world is as before. *)
Lemma replace_list_rejected w userId items now :
  authenticated w userId ->
  Exists (fun item => ~ item_accepted item) items ->
  exists msg,
    run (part_000_php (replaceShoppingList (Some items) now)) w
    = ({| status := 400; content := ErrorBody msg |}, w).
Proof.
  intros Hauth Hbad.
  rewrite (part_000_replace_run _ _ _ _ Hauth).
  destruct (validate_items_reject items w Hbad) as [msg Hv].
  exists msg. unfold run, replace_list, replaceShoppingList; simpl.
  unfold bind. rewrite Hv. reflexivity.
Qed.

(** With a working store, a batch the loop lets through is stored: the
    answer is the success message, the transaction is committed, the rows
    of other users are kept, and the caller's rows are one fresh row per
    item, in order, numbered from the AUTO_INCREMENT counter. *)
Lemma replace_list_accepted w userId items now :
  authenticated w userId ->
  db_faults w = [] ->
  Forall item_accepted items ->
  let result := run (part_000_php (replaceShoppingList (Some items) now)) w in
  fst result = replaced_ok
  /\ transaction (snd result) = None
  /\ shopping_items (db (snd result))
     = filter (fun r => owned_by userId r = false) (shopping_items (db w))
       ++ replaced_rows userId now (next_item_id (db w)) items
  /\ filter (fun r => owned_by userId r = true) (shopping_items (db (snd result)))
     = replaced_rows userId now (next_item_id (db w)) items.
Proof.
  intros Hauth Hf Hok result. subst result.
  rewrite (part_000_replace_run _ _ _ _ Hauth).
  remember (run (replace_list userId (replaceShoppingList (Some items) now)) w)
    as result eqn:E.
  unfold run, replace_list, replaceShoppingList in E; simpl in E.
  unfold bind at 1 in E. rewrite (validate_items_pass items w Hok) in E.
  unfold try_catch, bind, beginTransaction in E.
  rewrite execute_no_faults in E by (destruct w; exact Hf).
  rewrite insert_items_no_faults in E by (destruct w; exact Hf).
  unfold commit, sendJsonResponse in E. subst result. cbn.
  repeat split.
  rewrite filter_app, filter_owned_others, filter_owned_replaced. reflexivity.
Qed.

(** Every item of a batch has its row among the rows stored for the
    batch. *)
Lemma replaced_rows_In userId now item items : forall next,
  In item items ->
  exists id, In (inserted_row userId now id item) (replaced_rows userId now next items).
Proof.
  induction items as [| x rest IH]; intros next Hin; [destruct Hin |].
  destruct Hin as [-> | Hin].
  - exists next. left. reflexivity.
  - destruct (IH (next + 1) Hin) as [id Hid]. exists id. right. exact Hid.
Qed.

(** C1: the replace request of an authenticated caller on a working store,
    for a batch whose every item passes the validation loop of
    [part_000].  The answer is the success message, and the caller's list
    is one row per item; yet (1) an item that gives no quantity, which the
    loop reads as 1, is stored with quantity 0, and (2) an item whose unit
    is the JSON value [true], which the loose [in_array] takes for a member
    of the seven, is stored with the unit "1", which is none of the seven.
    So the rows stored were not validated: the loop checks
    [intval($item['quantity'] ?? 1)] and the insert binds
    [intval($item['quantity'])], and [in_array] is called without the
    strict flag. *)
Theorem replace_list_stores_unvalidated_values w userId items now :
  authenticated w userId ->
  db_faults w = [] ->
  Forall (fun item => validate_item item = None) items ->
  let result := run (part_000_php (replaceShoppingList (Some items) now)) w in
  let rows := filter (fun r => owned_by userId r = true)
                (shopping_items (db (snd result))) in
  fst result = replaced_ok
  /\ rows = replaced_rows userId now (next_item_id (db w)) items
  /\ (forall item,
        In item items -> f_quantity item = None ->
        exists row,
          In row rows /\ i_text row = trim (default "" (f_text item))
          /\ i_quantity row = 0)
  /\ (forall item,
        In item items -> f_unit item = Some (MBool true) ->
        exists row,
          In row rows /\ i_text row = trim (default "" (f_text item))
          /\ i_unit row = "1" /\ ~ In (i_unit row) validUnits).
Proof.
  intros Hauth Hf Hpass result rows.
  assert (Hok : Forall item_accepted items).
  { eapply Forall_impl; [exact Hpass |].
    intros item H. apply validate_item_accepted. exact H. }
  destruct (replace_list_accepted w userId items now Hauth Hf Hok)
    as (Hr & _ & _ & Hrows).
  fold result in Hr, Hrows. fold rows in Hrows.
  split; [exact Hr |]. split; [exact Hrows |]. split.
  - intros item Hin Hq.
    destruct (replaced_rows_In userId now item items (next_item_id (db w)) Hin)
      as [id Hid].
    exists (inserted_row userId now id item). rewrite Hrows.
    split; [exact Hid |]. split; [reflexivity |].
    unfold inserted_row; cbn [i_quantity]. rewrite Hq. reflexivity.
  - intros item Hin Hu.
    destruct (replaced_rows_In userId now item items (next_item_id (db w)) Hin)
      as [id Hid].
    exists (inserted_row userId now id item). rewrite Hrows.
    split; [exact Hid |]. split; [reflexivity |].
    unfold inserted_row; cbn [i_unit]. rewrite Hu.
    split; [reflexivity |]. simpl. intuition discriminate.
Qed.

Lemma replace_list_stores_unvalidated_values_witness :
  let result :=
    run (part_000_php (replaceShoppingList (Some unvalidated_batch) 300)) sample_world in
  let rows := filter (fun r => owned_by 7 r = true)
                (shopping_items (db (snd result))) in
  fst result = replaced_ok
  /\ (exists row, In row rows /\ i_text row = "Flour" /\ i_quantity row = 0)
  /\ (exists row,
        In row rows /\ i_text row = "Oil" /\ i_unit row = "1"
        /\ ~ In (i_unit row) validUnits).
Proof.
  intros result rows.
  assert (Hpass : Forall (fun item => validate_item item = None) unvalidated_batch)
    by (repeat constructor).
  destruct (replace_list_stores_unvalidated_values sample_world 7 unvalidated_batch 300
              (conj eq_refl eq_refl) eq_refl Hpass) as (Hr & _ & Hq & Hu).
  split; [exact Hr |]. split.
  - apply (Hq (sample_item "Flour" None "kg")); [left; reflexivity | reflexivity].
  - apply (Hu {| f_text := Some "Oil"; f_quantity := Some 1; f_unit := Some (MBool true);
                 f_description := None; f_completed := None |});
      [right; left; reflexivity | reflexivity].
Defined.

(** The rows the two items leave. *)
Example replace_list_unvalidated_sample :
  filter (fun r => owned_by 7 r = true)
    (shopping_items
       (db (snd (run (part_000_php (replaceShoppingList (Some unvalidated_batch) 300))
                   sample_world))))
  = [{| i_id := 5; i_user_id := 7; i_text := "Flour"; i_quantity := 0; i_unit := "kg";
        i_description := ""; i_completed := false; i_added_at := 300;
        i_completed_at := None; i_updated_at := None |};
     {| i_id := 6; i_user_id := 7; i_text := "Oil"; i_quantity := 1; i_unit := "1";
        i_description := ""; i_completed := false; i_added_at := 300;
        i_completed_at := None; i_updated_at := None |}].
Proof. reflexivity. Qed.

Example replace_list_bad_batch_sample :
  run (part_000_php (replaceShoppingList (Some bad_batch) 300)) sample_world
  = ({| status := 400;
        content := ErrorBody "Quantity must be at least 1 for all items" |},
     sample_world).
Proof. reflexivity. Qed.

Example replace_list_good_batch_sample :
  shopping_items
    (db (snd (run (part_000_php (replaceShoppingList (Some good_batch) 300)) sample_world)))
  = [sample_row 2 8 "Salt" false 110;
     inserted_row 7 300 5 (sample_item "Bread" (Some 2) "szt");
     inserted_row 7 300 6 (sample_item "Rice" (Some 1) "kg")].
Proof. reflexivity. Qed.

(** A fault at the second insert: the answer is a 500 and the rows are
    those before the request. *)
Example replace_list_rollback_sample :
  let w := set_faults [None; None; Some "gone away"] sample_world in
  let result := run (part_000_php (replaceShoppingList (Some good_batch) 300)) w in
  status (fst result) = 500
  /\ shopping_items (db (snd result)) = shopping_items (db sample_world).
Proof. split; reflexivity. Qed.



Example clear_sample :
  fst (run (part_000_php (clearList 300)) sample_world)
  = {| status := 200; content := MessageBody "3 items deleted successfully" |}.
Proof. reflexivity. Qed.

Example replace_with_no_items_sample :
  shopping_items
    (db (snd (run (part_000_php (replaceShoppingList (Some []) 300)) sample_world)))
  = [sample_row 2 8 "Salt" false 110].
Proof. reflexivity. Qed.

(** ** Adding an item *)

Lemma set_faults_same w : set_faults (db_faults w) w = w.
Proof. destruct w; reflexivity. Qed.

(** A statement either throws the pending fault or runs on the tables. *)
Lemma execute_cases {A} (stmt : database -> A * database) w :
  (exists msg, execute stmt w = (Throw msg, set_faults (tl (db_faults w)) w))
  \/ execute stmt w
     = (Val (fst (stmt (db w))),
        set_db (snd (stmt (db w))) (set_faults (tl (db_faults w)) w)).
Proof.
  unfold execute.
  destruct (db_faults w) as [| [msg |] rest] eqn:E; cbn [tl].
  - right. rewrite <- E, set_faults_same. destruct (stmt (db w)); reflexivity.
  - left. eauto.
  - right. destruct (stmt (db w)); reflexivity.
Qed.

Lemma find_fresh_row (rows : list item_row) (row : item_row) (id : Z) :
  Forall (fun r => i_id r < id) rows ->
  i_id row = id ->
  List.find (fun r => i_id r =? id) (rows ++ [row]) = Some row.
Proof.
  intros Hrows Hid. induction Hrows as [| r rows Hr _ IH]; simpl.
  - rewrite Hid, Z.eqb_refl. reflexivity.
  - destruct (i_id r =? id) eqn:E; [| exact IH].
    apply Z.eqb_eq in E. lia.
Qed.

(** The insert and the select of the add request, for a request that
    passes the two checks: a fault makes the handler throw, otherwise it
    answers 201 with the row just stored. *)
Lemma items_post_accepted userId item now w :
  fresh_counter (db w) ->
  php_empty (trim (default "" (f_text item))) = false ->
  1 <= default 1 (f_quantity item) ->
  (exists msg w', items_post userId (addItem item now) w = (Throw msg, w'))
  \/ (exists w',
        items_post userId (addItem item now) w
        = (Exit {| status := 201;
                   content := ItemBody (fetch_columns (added_row (db w) userId now item)) |},
           w')
        /\ shopping_items (db w')
           = shopping_items (db w) ++ [added_row (db w) userId now item]).
Proof.
  intros Hfresh Htext Hq.
  unfold items_post, addItem; cbn [req_body b_fields req_now].
  rewrite Htext.
  destruct (default 1 (f_quantity item) <? 1) eqn:E; [apply Z.ltb_lt in E; lia |].
  unfold bind.
  destruct (execute_cases
              (sql_insert_item userId (trim (default "" (f_text item)))
                 (default 1 (f_quantity item))
                 (strval (default (MString "szt") (f_unit item)))
                 (trim (default "" (f_description item)))
                 (default false (f_completed item)) now) w) as [[msg H] | H];
    rewrite H.
  - left. eauto.
  - cbn [fst snd sql_insert_item].
    match goal with |- context [execute ?s ?w1] =>
      destruct (execute_cases s w1) as [[msg H1] | H1]; rewrite H1
    end.
    + left. eauto.
    + right. cbn [fst snd sql_select_by_id db set_db set_faults shopping_items].
      fold (added_row (db w) userId now item).
      rewrite (find_fresh_row (shopping_items (db w)) (added_row (db w) userId now item)
                 (next_item_id (db w)) Hfresh eq_refl).
      unfold sendJsonResponse. eexists. split; reflexivity.
Qed.

Lemma items_post_no_faults userId item now w :
  db_faults w = [] ->
  fresh_counter (db w) ->
  php_empty (trim (default "" (f_text item))) = false ->
  1 <= default 1 (f_quantity item) ->
  exists w',
    items_post userId (addItem item now) w
    = (Exit {| status := 201;
               content := ItemBody (fetch_columns (added_row (db w) userId now item)) |},
       w')
    /\ shopping_items (db w') = shopping_items (db w) ++ [added_row (db w) userId now item].
Proof.
  intros Hf Hfresh Htext Hq.
  destruct (items_post_accepted userId item now w Hfresh Htext Hq)
    as [(msg & w' & H) | H]; [| exact H].
  exfalso. revert H.
  unfold items_post, addItem; cbn [req_body b_fields req_now].
  rewrite Htext.
  destruct (default 1 (f_quantity item) <? 1); [discriminate |].
  unfold bind. rewrite execute_no_faults by exact Hf. cbn [fst snd].
  rewrite execute_no_faults by (destruct w; exact Hf). cbn [fst snd].
  destruct (sql_select_by_id _ _) as [[row |] d']; discriminate.
Qed.

Lemma items_post_run put w userId item now :
  authenticated w userId ->
  items_script put (addItem item now) w
  = try_catch (items_post userId (addItem item now)) (fun _ => generic_500) w.
Proof.
  intros Hauth. rewrite (items_script_authenticated _ _ _ _ Hauth). reflexivity.
Qed.

(** A text that is absent, empty or blank is rejected with 400 whatever
    the other fields, and nothing changes. *)
Lemma add_item_empty_text_rejected put w userId item now :
  authenticated w userId ->
  trim (default "" (f_text item)) = "" ->
  run (items_script put (addItem item now)) w
  = ({| status := 400; content := ErrorBody "Item text is required" |}, w).
Proof.
  intros Hauth Hempty.
  unfold run. rewrite (items_post_run _ _ _ _ _ Hauth). unfold try_catch.
  unfold items_post, addItem; cbn [req_body b_fields].
  rewrite Hempty. reflexivity.
Qed.

(** The replace branch sends its third error for a batch of one item that
    passes the first two checks and whose unit [in_array] does not find. *)
Lemma replace_list_invalid_unit w userId item unit now :
  authenticated w userId ->
  php_empty (trim (default "" (f_text item))) = false ->
  1 <= default 1 (f_quantity item) ->
  f_unit item = Some unit ->
  in_array unit validUnits = false ->
  run (part_000_php (replaceShoppingList (Some [item]) now)) w
  = ({| status := 400; content := ErrorBody "Invalid unit for one or more items" |}, w).
Proof.
  intros Hauth Htext Hq Hu Hunit.
  rewrite (part_000_replace_run _ _ _ _ Hauth).
  unfold run, replace_list, replaceShoppingList; cbn [req_body b_items req_now].
  change (default [] (Some [item])) with [item].
  unfold bind at 1. cbn [validate_items]. unfold validate_item.
  rewrite Htext, Hu.
  change (default (MString "") (Some unit)) with unit. rewrite Hunit.
  destruct (default 1 (f_quantity item) <? 1) eqn:E; [apply Z.ltb_lt in E; lia |].
  reflexivity.
Qed.

(** C3: the add request of an authenticated caller on a working store, in
    either revision of the script, for a request that passes the two
    checks of the handler (text not empty, quantity at least 1 or omitted)
    and whose unit is not one of the seven for [in_array].  The answer is
    201 and the created record, a row of the table afterwards, has a
    positive quantity and carries the unit as it was sent, which is none of
    the seven: the add handler never looks at the unit.  The replace branch
    of [part_000] answers 400 to a batch consisting of this very item, and
    changes nothing. *)
Theorem add_item_stores_any_unit put w userId item unit now :
  authenticated w userId ->
  db_faults w = [] ->
  fresh_counter (db w) ->
  php_empty (trim (default "" (f_text item))) = false ->
  1 <= default 1 (f_quantity item) ->
  f_unit item = Some unit ->
  in_array unit validUnits = false ->
  let added := run (items_script put (addItem item now)) w in
  (exists created,
     fst added = {| status := 201; content := ItemBody created |}
     /\ 0 < j_quantity created
     /\ j_unit created = strval unit
     /\ ~ In (j_unit created) validUnits
     /\ In created (map fetch_columns (shopping_items (db (snd added)))))
  /\ run (part_000_php (replaceShoppingList (Some [item]) now)) w
     = ({| status := 400; content := ErrorBody "Invalid unit for one or more items" |}, w).
Proof.
  intros Hauth Hf Hfresh Htext Hq Hu Hunit added.
  split; [| exact (replace_list_invalid_unit w userId item unit now Hauth Htext Hq Hu Hunit)].
  subst added. unfold run. rewrite (items_post_run _ _ _ _ _ Hauth). unfold try_catch.
  destruct (items_post_no_faults userId item now w Hf Hfresh Htext Hq)
    as (w' & H & Hrows).
  rewrite H. eexists. split; [reflexivity |].
  assert (Hsent : j_unit (fetch_columns (added_row (db w) userId now item)) = strval unit).
  { unfold added_row, new_row, fetch_columns; cbn [j_unit i_unit]. rewrite Hu. reflexivity. }
  split; [simpl; lia |]. split; [exact Hsent |]. split.
  - rewrite Hsent. apply in_array_rejected. exact Hunit.
  - cbn [snd]. rewrite Hrows. apply in_map, in_or_app. right. left. reflexivity.
Qed.

Lemma add_item_stores_any_unit_witness :
  (exists created,
     fst (run (items_php (addItem (sample_item "Milk" (Some 2) "bogus") 300)) sample_world)
     = {| status := 201; content := ItemBody created |}
     /\ 0 < j_quantity created
     /\ j_unit created = "bogus"
     /\ ~ In (j_unit created) validUnits
     /\ In created
          (map fetch_columns
             (shopping_items
                (db (snd (run (items_php (addItem (sample_item "Milk" (Some 2) "bogus") 300))
                            sample_world))))))
  /\ run (part_000_php
            (replaceShoppingList (Some [sample_item "Milk" (Some 2) "bogus"]) 300))
       sample_world
     = ({| status := 400; content := ErrorBody "Invalid unit for one or more items" |},
        sample_world).
Proof.
  apply (add_item_stores_any_unit items_put sample_world 7
           (sample_item "Milk" (Some 2) "bogus") (MString "bogus") 300
           (conj eq_refl eq_refl) eq_refl).
  - repeat constructor.
  - reflexivity.
  - simpl. lia.
  - reflexivity.
  - reflexivity.
Defined.

(** The same request in the revision with the bulk replace, and the record
    it returns. *)
Example add_item_bogus_unit_sample :
  fst (run (part_000_php (addItem (sample_item "Milk" (Some 2) "bogus") 300)) sample_world)
  = {| status := 201;
       content := ItemBody {| j_id := 5; j_text := "Milk"; j_quantity := 2;
                              j_unit := "bogus"; j_description := "";
                              j_completed := false; j_added_at := 300;
                              j_completed_at := None; j_updated_at := None |} |}.
Proof. reflexivity. Qed.

Example add_item_sample :
  fst (run (items_php (addItem (sample_item "Milk" (Some 2) "l") 300)) sample_world)
  = {| status := 201;
       content := ItemBody {| j_id := 5; j_text := "Milk"; j_quantity := 2; j_unit := "l";
                              j_description := ""; j_completed := false;
                              j_added_at := 300; j_completed_at := None;
                              j_updated_at := None |} |}.
Proof. reflexivity. Qed.

(** [empty] takes the text "0" for an empty one. *)
Lemma php_empty_iff s : php_empty s = true <-> s = "" \/ s = "0".
Proof.
  unfold php_empty. rewrite orb_true_iff, !String.eqb_eq. tauto.
Qed.

Lemma php_empty_false s : s <> "" -> s <> "0" -> php_empty s = false.
Proof.
  intros H1 H2. destruct (php_empty s) eqn:E; [| reflexivity].
  apply php_empty_iff in E. tauto.
Qed.

(** C10, for texts that are not blank: an add request that gives only a
    text which, trimmed, is neither empty nor "0", and omits quantity, unit,
    description and completed, is answered 201 by either revision of the
    script on a working store, and the item is created with the trimmed
    text, quantity 1, unit "szt", an empty description and completed
    false. *)
Theorem add_item_defaults put w userId text now :
  authenticated w userId ->
  db_faults w = [] ->
  fresh_counter (db w) ->
  trim text <> "" ->
  trim text <> "0" ->
  exists created,
    fst (run (items_script put (addItem (text_only text) now)) w)
    = {| status := 201; content := ItemBody created |}
    /\ j_text created = trim text
    /\ j_quantity created = 1 /\ j_unit created = "szt"
    /\ j_description created = "" /\ j_completed created = false
    /\ In created
         (map fetch_columns
            (shopping_items (db (snd (run (items_script put (addItem (text_only text) now)) w))))).
Proof.
  intros Hauth Hf Hfresh Hne Hnz.
  pose proof (php_empty_false _ Hne Hnz) as Htext.
  unfold run. rewrite (items_post_run _ _ _ _ _ Hauth). unfold try_catch.
  destruct (items_post_no_faults userId (text_only text) now w Hf Hfresh Htext)
    as (w' & H & Hrows); [simpl; lia |].
  rewrite H. eexists. split; [reflexivity |].
  repeat (split; [reflexivity |]).
  cbn [snd]. rewrite Hrows. apply in_map, in_or_app. right. left. reflexivity.
Qed.

Lemma add_item_defaults_witness :
  exists created,
    fst (run (items_php (addItem (text_only "Butter") 300)) sample_world)
    = {| status := 201; content := ItemBody created |}
    /\ j_text created = "Butter"
    /\ j_quantity created = 1 /\ j_unit created = "szt"
    /\ j_description created = "" /\ j_completed created = false
    /\ In created
         (map fetch_columns
            (shopping_items
               (db (snd (run (items_php (addItem (text_only "Butter") 300)) sample_world))))).
Proof.
  apply (add_item_defaults items_put sample_world 7 "Butter" 300
           (conj eq_refl eq_refl) eq_refl).
  - repeat constructor.
  - simpl. discriminate.
  - simpl. discriminate.
Defined.

(** A text of one space is not the empty text, and the add request that
    gives only this text is answered 400: no item is created. *)
Lemma add_item_blank_text_not_created :
  " " <> ""
  /\ run (items_php (addItem (text_only " ") 300)) sample_world
     = ({| status := 400; content := ErrorBody "Item text is required" |}, sample_world)
  /\ ~ (exists created,
          fst (run (items_php (addItem (text_only " ") 300)) sample_world)
          = {| status := 201; content := ItemBody created |}).
Proof.
  split; [discriminate |]. split; [reflexivity |].
  intros [created H]. vm_compute in H. discriminate H.
Qed.

(** The text "0" is rejected like an empty one. *)
Example add_item_text_zero_sample :
  run (items_php (addItem (text_only "0") 300)) sample_world
  = ({| status := 400; content := ErrorBody "Item text is required" |}, sample_world).
Proof. reflexivity. Qed.

(** ** Updating an item: [items.php] *)

Lemma select_owned_found d userId id :
  owns d userId id -> fst (sql_select_owned id userId d) = Some id.
Proof.
  unfold owns, sql_select_owned; cbn [fst].
  induction 1 as [r rows [Hid Hu] | r rows _ IH]; cbn [List.find].
  - unfold owned_by. rewrite Hid, Hu, !Z.eqb_refl. simpl. congruence.
  - destruct ((i_id r =? id) && owned_by userId r) eqn:E; [| exact IH].
    apply andb_true_iff in E as [E _]. apply Z.eqb_eq in E.
    simpl. congruence.
Qed.

Lemma select_owned_missing d userId id :
  ~ owns d userId id -> fst (sql_select_owned id userId d) = None.
Proof.
  unfold owns, sql_select_owned; cbn [fst].
  induction (shopping_items d) as [| r rows IH]; intros Hno; cbn [List.find].
  - reflexivity.
  - destruct ((i_id r =? id) && owned_by userId r) eqn:E.
    + exfalso. apply Hno. left.
      apply andb_true_iff in E as [E1 E2].
      apply Z.eqb_eq in E1. apply Z.eqb_eq in E2. auto.
    + apply IH. intros H. apply Hno. right. exact H.
Qed.

Lemma items_put_run put w userId id updates now :
  authenticated w userId ->
  items_script put (updateItem id updates now) w
  = try_catch (put userId (updateItem id updates now)) (fun _ => generic_500) w.
Proof.
  intros Hauth. rewrite (items_script_authenticated _ _ _ _ Hauth). reflexivity.
Qed.

(** [items.php], update of a row the caller does not own, or of no row: 404
    and the world as before. *)
Lemma items_put_not_found w userId id updates now :
  authenticated w userId ->
  db_faults w = [] ->
  id <> 0 ->
  ~ owns (db w) userId id ->
  run (items_php (updateItem id updates now)) w = (not_found, w).
Proof.
  intros Hauth Hf Hid Hno.
  unfold run, items_php. rewrite (items_put_run _ _ _ _ _ _ Hauth).
  unfold try_catch, items_put, updateItem; cbn [req_id req_body truthy_id].
  destruct (id =? 0) eqn:E; [apply Z.eqb_eq in E; contradiction |].
  unfold bind at 1. rewrite execute_no_faults by exact Hf.
  rewrite (select_owned_missing _ _ _ Hno).
  unfold sql_select_owned; cbn [snd]. rewrite set_db_same. reflexivity.
Qed.

(** [items.php], update of an owned row with an empty text or a quantity
    below 1: 400 and the world as before. *)
Lemma items_put_invalid w userId id updates now :
  authenticated w userId ->
  db_faults w = [] ->
  id <> 0 ->
  owns (db w) userId id ->
  ~ update_accepted updates ->
  exists msg,
    run (items_php (updateItem id updates now)) w
    = ({| status := 400; content := ErrorBody msg |}, w).
Proof.
  intros Hauth Hf Hid Hown Hbad.
  unfold run, items_php. rewrite (items_put_run _ _ _ _ _ _ Hauth).
  unfold try_catch, items_put, updateItem; cbn [req_id req_body truthy_id b_fields].
  destruct (id =? 0) eqn:E; [apply Z.eqb_eq in E; contradiction |].
  unfold bind at 1. rewrite execute_no_faults by exact Hf.
  rewrite (select_owned_found _ _ _ Hown).
  unfold sql_select_owned; cbn [snd]. rewrite set_db_same.
  unfold update_accepted in Hbad. unfold bind, ret, sendJsonResponse.
  destruct (f_text updates) as [t |].
  - destruct (php_empty (trim t)) eqn:Et; [eexists; reflexivity |].
    destruct (f_quantity updates) as [q |]; [| tauto].
    destruct (q <? 1) eqn:Eq; [eexists; reflexivity |].
    apply Z.ltb_ge in Eq. tauto.
  - destruct (f_quantity updates) as [q |]; [| tauto].
    destruct (q <? 1) eqn:Eq; [eexists; reflexivity |].
    apply Z.ltb_ge in Eq. tauto.
Qed.

(** [items.php], update of an owned row with accepted fields: the fields
    present are stored, [completed] sets or clears [completed_at], and
    [updated_at] is refreshed. *)
Lemma items_put_accepted w userId id updates now :
  authenticated w userId ->
  db_faults w = [] ->
  id <> 0 ->
  owns (db w) userId id ->
  update_accepted updates ->
  no_fields updates = false ->
  run (items_php (updateItem id updates now)) w
  = (updated_ok,
     set_db (set_items
               (map (fun r => if i_id r =? id then items_update updates now r else r)
                  (shopping_items (db w))) (db w)) w).
Proof.
  intros Hauth Hf Hid Hown [Ht Hq] Hsome.
  unfold run, items_php. rewrite (items_put_run _ _ _ _ _ _ Hauth).
  unfold try_catch, items_put, updateItem; cbn [req_id req_body truthy_id b_fields req_now].
  destruct (id =? 0) eqn:E; [apply Z.eqb_eq in E; contradiction |].
  unfold bind at 1. rewrite execute_no_faults by exact Hf.
  rewrite (select_owned_found _ _ _ Hown).
  unfold sql_select_owned; cbn [snd]. rewrite set_db_same.
  rewrite Hsome. unfold items_update.
  assert (Hq' : match f_quantity updates with Some q => (q <? 1) = false | None => True end).
  { destruct (f_quantity updates); [apply Z.ltb_ge; exact Hq | exact I]. }
  destruct (f_text updates) as [t |]; [rewrite Ht |];
    (destruct (f_quantity updates) as [q |]; [rewrite Hq' |]);
    unfold bind, ret; rewrite execute_no_faults by exact Hf; reflexivity.
Qed.

Lemma items_update_completed completed now r :
  let r' := items_update (completed_only completed) now r in
  i_completed r' = completed
  /\ i_completed_at r' = (if completed then Some now else None)
  /\ i_updated_at r' = Some now.
Proof. destruct completed; repeat split. Qed.

Lemma items_update_refreshes updates now r :
  i_updated_at (items_update updates now r) = Some now.
Proof. reflexivity. Qed.

Lemma owns_map d userId id (f : item_row -> item_row) :
  (forall r, i_id (f r) = i_id r /\ i_user_id (f r) = i_user_id r) ->
  owns d userId id ->
  owns (set_items (map f (shopping_items d)) d) userId id.
Proof.
  intros Hf. unfold owns; cbn [shopping_items set_items].
  induction 1 as [r rows [Hid Hu] | r rows _ IH]; cbn [map].
  - left. destruct (Hf r) as [-> ->]. auto.
  - right. exact IH.
Qed.

(** [items.php]: toggling an owned item sets the flag with its timestamp,
    toggling it again clears both; each time [updated_at] is refreshed. *)
Lemma items_toggle_twice w userId id now1 now2 :
  authenticated w userId ->
  db_faults w = [] ->
  id <> 0 ->
  owns (db w) userId id ->
  let once := run (items_php (toggle id false now1)) w in
  let twice := run (items_php (toggle id true now2)) (snd once) in
  fst once = updated_ok
  /\ shopping_items (db (snd once))
     = map (fun r => if i_id r =? id
                     then items_update (completed_only true) now1 r else r)
         (shopping_items (db w))
  /\ fst twice = updated_ok
  /\ shopping_items (db (snd twice))
     = map (fun r => if i_id r =? id
                     then items_update (completed_only false) now2
                            (items_update (completed_only true) now1 r)
                     else r)
         (shopping_items (db w)).
Proof.
  intros Hauth Hf Hid Hown once twice.
  assert (H1 : once = (updated_ok,
                       set_db (set_items
                                 (map (fun r => if i_id r =? id
                                                then items_update (completed_only true) now1 r
                                                else r)
                                    (shopping_items (db w))) (db w)) w)).
  { apply (items_put_accepted w userId id (completed_only true) now1); auto.
    split; exact I. }
  assert (H2 : twice = (updated_ok,
                        set_db (set_items
                                  (map (fun r => if i_id r =? id
                                                 then items_update (completed_only false) now2 r
                                                 else r)
                                     (shopping_items (db (snd once)))) (db (snd once)))
                          (snd once))).
  { apply (items_put_accepted (snd once) userId id (completed_only false) now2); auto.
    - rewrite H1. destruct Hauth. split; assumption.
    - rewrite H1. exact Hf.
    - rewrite H1. cbn [snd db set_db]. apply owns_map; [| exact Hown].
      intros r. destruct (i_id r =? id); split; reflexivity.
    - split; exact I. }
  rewrite H2, H1. cbn [fst snd db set_db shopping_items set_items].
  repeat split.
  rewrite map_map. apply map_ext. intros r.
  destruct (i_id r =? id) eqn:E; [| rewrite E; reflexivity].
  cbn [items_update items_set i_id]. rewrite E. reflexivity.
Qed.

Example items_toggle_sample :
  shopping_items (db (snd (run (items_php (toggle 1 false 300)) sample_world)))
  = [{| i_id := 1; i_user_id := 7; i_text := "Milk"; i_quantity := 1; i_unit := "szt";
        i_description := ""; i_completed := true; i_added_at := 100;
        i_completed_at := Some 300; i_updated_at := Some 300 |};
     sample_row 2 8 "Salt" false 110; sample_row 3 7 "Eggs" true 120;
     sample_row 4 7 "Tea" false 130].
Proof. reflexivity. Qed.

(** ** Updating an item: the revision with the bulk replace *)

(** C4: in the revision of [items.php] that has the bulk replace, the
    single-item update stores the completion flag without its timestamp.
    Toggling the incomplete item 1 answers 200 and leaves it completed with
    no completed timestamp; toggling the completed item 3 leaves its
    completed timestamp set.  Only [updated_at] is refreshed. *)
Theorem part_000_toggle_keeps_completed_at :
  run (part_000_php (toggle 1 false 300)) sample_world
  = (updated_ok,
     set_db (set_items
               [{| i_id := 1; i_user_id := 7; i_text := "Milk"; i_quantity := 1;
                   i_unit := "szt"; i_description := ""; i_completed := true;
                   i_added_at := 100; i_completed_at := None;
                   i_updated_at := Some 300 |};
                sample_row 2 8 "Salt" false 110; sample_row 3 7 "Eggs" true 120;
                sample_row 4 7 "Tea" false 130] (db sample_world)) sample_world)
  /\ option_map i_completed_at
       (List.find (fun r => i_id r =? 3)
          (shopping_items (db (snd (run (part_000_php (toggle 3 true 300)) sample_world)))))
     = Some (Some 120).
Proof. split; reflexivity. Qed.

(** C5: in the revision of [items.php] that has the bulk replace, the
    single-item update checks neither the text nor the quantity.  An update
    of the owned item 1 with an empty text, and one with quantity 0, are
    answered 200 and stored. *)
Theorem part_000_update_stores_invalid_fields :
  run (part_000_php (updateItem 1 (text_only "") 300)) sample_world
  = (updated_ok,
     set_db (set_items
               [{| i_id := 1; i_user_id := 7; i_text := ""; i_quantity := 1;
                   i_unit := "szt"; i_description := ""; i_completed := false;
                   i_added_at := 100; i_completed_at := None;
                   i_updated_at := Some 300 |};
                sample_row 2 8 "Salt" false 110; sample_row 3 7 "Eggs" true 120;
                sample_row 4 7 "Tea" false 130] (db sample_world)) sample_world)
  /\ run (part_000_php
            (updateItem 1 {| f_text := None; f_quantity := Some 0; f_unit := None;
                             f_description := None; f_completed := None |} 300))
       sample_world
     = (updated_ok,
        set_db (set_items
                  [{| i_id := 1; i_user_id := 7; i_text := "Milk"; i_quantity := 0;
                      i_unit := "szt"; i_description := ""; i_completed := false;
                      i_added_at := 100; i_completed_at := None;
                      i_updated_at := Some 300 |};
                   sample_row 2 8 "Salt" false 110; sample_row 3 7 "Eggs" true 120;
                   sample_row 4 7 "Tea" false 130] (db sample_world)) sample_world).
Proof. split; reflexivity. Qed.

(** The not-found answer of the revision: an update of another user's item
    changes no row and is answered 404. *)
Example part_000_update_foreign_item :
  run (part_000_php (updateItem 2 (text_only "Sugar") 300)) sample_world
  = (not_found, sample_world).
Proof. reflexivity. Qed.

(** The same requests against [items.php]. *)
Example items_update_invalid_sample :
  run (items_php (updateItem 1 (text_only "") 300)) sample_world
  = ({| status := 400; content := ErrorBody "Item text cannot be empty" |}, sample_world)
  /\ run (items_php (updateItem 2 (text_only "Sugar") 300)) sample_world
     = (not_found, sample_world).
Proof. split; reflexivity. Qed.

(** ** Storage failures *)

(** Both revisions of [items.php]: an exception that leaves the [switch] is
    answered with the generic message. *)
Lemma items_script_generic_500 put r w userId msg w' :
  authenticated w userId ->
  items_switch put userId r w = (Throw msg, w') ->
  run (items_script put r) w
  = ({| status := 500; content := ErrorBody "Database error occurred" |}, w').
Proof.
  intros Hauth H. unfold run.
  rewrite (items_script_authenticated _ _ _ _ Hauth).
  unfold try_catch. rewrite H. reflexivity.
Qed.

(** The registration script answers a storage failure with the generic
    message. *)
Lemma register_generic_500 password_hash r w msg rest :
  db_connect_error w = None ->
  db_faults w = Some msg :: rest ->
  status (fst (run (register_php password_hash r) w)) = 500 ->
  fst (run (register_php password_hash r) w)
  = {| status := 500; content := ErrorBody "Database error occurred" |}.
Proof.
  intros Hc Hf. unfold run, register_php.
  destruct (negb (String.eqb (req_method r) "POST")); [simpl; discriminate |].
  destruct (req_body r) as [c |]; [| simpl; discriminate].
  destruct (php_empty (trim (default "" (c_username c))) || php_empty (default "" (c_password c)));
    [simpl; discriminate |].
  destruct (String.length (default "" (c_password c)) <? 8)%nat; [simpl; discriminate |].
  unfold try_catch, bind, getDB, execute. rewrite Hc, Hf. reflexivity.
Qed.

(** [login.php] answers a failure of its query with the text of the
    exception. *)
Lemma login_exception_in_body password_verify username password now w msg rest :
  php_empty (trim username) = false ->
  php_empty password = false ->
  db_connect_error w = None ->
  db_faults w = Some msg :: rest ->
  run (login_php password_verify (loginUser username password now)) w
  = ({| status := 500; content := ErrorBody ("Database error: " ++ msg)%string |},
     set_faults rest w).
Proof.
  intros Hu Hp Hc Hf.
  unfold run, login_php, loginUser; cbn [req_method req_body c_username c_password].
  change (default "" (Some username)) with username.
  change (default "" (Some password)) with password.
  rewrite Hu, Hp. cbn [orb negb String.eqb Ascii.eqb Bool.eqb].
  unfold try_catch, bind, getDB, execute. rewrite Hc, Hf. reflexivity.
Qed.

(** The replace branch answers a failure inside its transaction with the
    text of the exception. *)
Lemma replace_exception_in_body w userId items now msg rest :
  authenticated w userId ->
  Forall item_accepted items ->
  db_faults w = Some msg :: rest ->
  fst (run (part_000_php (replaceShoppingList (Some items) now)) w)
  = {| status := 500; content := ErrorBody ("Failed to replace list: " ++ msg)%string |}.
Proof.
  intros Hauth Hok Hf.
  rewrite (part_000_replace_run _ _ _ _ Hauth).
  unfold run, replace_list, replaceShoppingList; cbn [req_body b_items req_now].
  change (default [] (Some items)) with items.
  unfold bind at 1. rewrite (validate_items_pass items w Hok).
  unfold try_catch, bind, beginTransaction, execute.
  cbn [db_faults set_transaction]. rewrite Hf. reflexivity.
Qed.

(** C2: with the query of [login.php] failing, the body of the 500 answer
    carries the message of the exception after "Database error: "; with the
    DELETE of the replace branch failing, the body carries it after "Failed
    to replace list: ".  The frame of [items.php] for the same failure
    answers "Database error occurred". *)
Theorem login_and_replace_show_exception_message password_verify :
  let w := set_faults [Some gone_away] sample_world in
  fst (run (login_php password_verify (loginUser "alice" "Secret1!" 300)) w)
  = {| status := 500;
       content := ErrorBody "Database error: SQLSTATE[HY000]: General error: 2006 MySQL server has gone away" |}
  /\ fst (run (part_000_php (replaceShoppingList (Some good_batch) 300)) w)
     = {| status := 500;
          content := ErrorBody "Failed to replace list: SQLSTATE[HY000]: General error: 2006 MySQL server has gone away" |}
  /\ fst (run (part_000_php (getShoppingList 300)) w)
     = {| status := 500; content := ErrorBody "Database error occurred" |}.
Proof. repeat split. Qed.

(** A connection that cannot be opened ends every script in [getDB] with
    the text of the exception. *)
Example connection_failure_sample :
  let w := {| db := db sample_world; php_session := php_session sample_world;
              db_connect_error := Some "SQLSTATE[HY000] [1045] Access denied for user";
              db_faults := []; transaction := None |} in
  fst (run (items_php (getShoppingList 300)) w)
  = {| status := 200;
       content := RawText "Database connection failed: SQLSTATE[HY000] [1045] Access denied for user" |}.
Proof. reflexivity. Qed.

(** ** Password strength *)

Lemma tally_points password :
  let req := requirements_of password in
  let long := (minLength req <=? length password)%nat in
  let cases := hasLowercase req && hasUppercase req in
  tally password
  = (point long + point cases + point (hasNumbers req) + point (hasSpecial req),
     complaint long msg_length ++ complaint cases msg_cases
     ++ complaint (hasNumbers req) msg_digits ++ complaint (hasSpecial req) msg_special).
Proof.
  intros req long cases. unfold tally. fold req. fold cases. fold long.
  destruct long, cases, (hasNumbers req), (hasSpecial req); reflexivity.
Qed.

Lemma strengthLevel_bands score :
  strengthLevel score
  = if score <? 2 then "very-weak"
    else if score <? 3 then "weak"
    else if score <? 4 then "medium"
    else "strong".
Proof.
  unfold strengthLevel.
  destruct (4 <=? score) eqn:E4, (3 <=? score) eqn:E3, (2 <=? score) eqn:E2,
    (score <? 2) eqn:L2, (score <? 3) eqn:L3, (score <? 4) eqn:L4;
    try reflexivity;
    rewrite ?Z.leb_le, ?Z.leb_gt, ?Z.ltb_lt, ?Z.ltb_ge in *; lia.
Qed.

(** C6, with the first example in the band the thresholds give it: for
    every password the
    score is the number of requirements met among length at least 8, a
    lower-case and an upper-case letter, a digit, and a character of the
    fixed set, so it lies between 0 and 4; the level is very-weak below 2,
    weak below 3, medium below 4 and strong at 4; the feedback joins the
    complaints of the requirements that are not met, in that order, or
    praises the password when none is.  "aaaaaaaa" scores 1, which is the
    very-weak band; "Aa1!aaaa" scores 4 and is strong; the empty password
    scores 0 and its feedback begins with the minimum-length complaint. *)
Theorem password_strength_scoring :
  (forall password,
     let req := requirements_of password in
     let long := (8 <=? length password)%nat in
     let cases := hasLowercase req && hasUppercase req in
     let score := fst (tally password) in
     let notes := snd (tally password) in
     score = point long + point cases + point (hasNumbers req) + point (hasSpecial req)
     /\ 0 <= score <= 4
     /\ strength (checkStrength password)
        = (if score <? 2 then "very-weak"
           else if score <? 3 then "weak"
           else if score <? 4 then "medium"
           else "strong")
     /\ notes = complaint long msg_length ++ complaint cases msg_cases
                ++ complaint (hasNumbers req) msg_digits
                ++ complaint (hasSpecial req) msg_special
     /\ feedback (checkStrength password)
        = match notes with [] => "Mocne hasło!" | _ => String.concat ". " notes end)
  /\ (fst (tally (js "aaaaaaaa")) = 1
      /\ strength (checkStrength (js "aaaaaaaa")) = "very-weak")
  /\ (fst (tally (js "Aa1!aaaa")) = 4
      /\ strength (checkStrength (js "Aa1!aaaa")) = "strong")
  /\ (fst (tally (js "")) = 0
      /\ In msg_length (snd (tally (js "")))
      /\ String.prefix msg_length (feedback (checkStrength (js ""))) = true).
Proof.
  split; [| repeat split; simpl; auto].
  intros password req long cases score notes.
  pose proof (tally_points password) as H. cbv zeta in H.
  change (minLength (requirements_of password)) with 8%nat in H.
  fold req in H. fold long in H. fold cases in H.
  subst score notes. unfold checkStrength. rewrite H. cbn [fst snd].
  split; [reflexivity |].
  split; [unfold point; destruct long, cases, (hasNumbers req), (hasSpecial req); lia |].
  split; [apply strengthLevel_bands |].
  split; reflexivity.
Qed.

(** The claim's reading of the first example does not hold: eight
    lower-case letters score 1, and the level of score 1 is not "weak". *)
Lemma eight_lowercase_not_in_weak_band :
  ~ (fst (tally (js "aaaaaaaa")) = 1
     /\ strength (checkStrength (js "aaaaaaaa")) = "weak").
Proof. intros [_ H]. vm_compute in H. discriminate H. Qed.

(** ** The client session cache *)

(** C8: the validity check answers false when no session entry is stored;
    for a stored entry with the remember flag it answers true exactly when
    fewer than 7 * 24 * 60 * 60 * 1000 milliseconds have passed since the
    entry's timestamp; for a stored entry without the flag it answers
    true. *)
Theorem session_valid_for_a_week now b :
  (getSession b = None -> isSessionValid now b = false)
  /\ (forall session,
        getSession b = Some (StoredSession session) -> rememberMe session = true ->
        (isSessionValid now b = true
         <-> now - timestamp session < 7 * 24 * 60 * 60 * 1000))
  /\ (forall session,
        getSession b = Some (StoredSession session) -> rememberMe session = false ->
        isSessionValid now b = true).
Proof.
  unfold isSessionValid. split; [| split].
  - intros ->. reflexivity.
  - intros session -> ->. unfold oneWeek. apply Z.ltb_lt.
  - intros session -> ->. reflexivity.
Qed.

(** What [getSession] reads after [saveSession] in a browser whose session
    storage holds no entry. *)
Lemma getSession_saveSession u remember now b :
  sessionStorage b !! SESSION_KEY = None ->
  getSession (snd (saveSession u remember now b))
  = Some (StoredSession {| user := u; timestamp := now; rememberMe := remember |}).
Proof.
  intros Hnone. unfold getSession, saveSession.
  destruct remember; cbn [snd sessionStorage localStorage].
  - rewrite Hnone.
    rewrite lookup_insert_ne by discriminate.
    rewrite lookup_insert_ne by discriminate.
    rewrite lookup_insert_eq. reflexivity.
  - rewrite lookup_insert_eq. reflexivity.
Qed.

Lemma session_valid_for_a_week_witness :
  let b := snd (saveSession alice true 1000 empty_browser) in
  isSessionValid (1000 + 6 * 24 * 60 * 60 * 1000) b = true
  /\ isSessionValid (1000 + 7 * 24 * 60 * 60 * 1000) b <> true
  /\ isSessionValid 0 empty_browser = false
  /\ isSessionValid (1000 + 70 * 24 * 60 * 60 * 1000)
       (snd (saveSession alice false 1000 empty_browser)) = true.
Proof.
  intros b.
  assert (Hb : getSession b
               = Some (StoredSession
                         {| user := alice; timestamp := 1000; rememberMe := true |}))
    by (apply getSession_saveSession; reflexivity).
  destruct (session_valid_for_a_week (1000 + 6 * 24 * 60 * 60 * 1000) b) as (_ & Hsix & _).
  destruct (session_valid_for_a_week (1000 + 7 * 24 * 60 * 60 * 1000) b) as (_ & Hseven & _).
  destruct (session_valid_for_a_week 0 empty_browser) as (Hnone & _ & _).
  destruct (session_valid_for_a_week (1000 + 70 * 24 * 60 * 60 * 1000)
              (snd (saveSession alice false 1000 empty_browser))) as (_ & _ & Hplain).
  split; [| split; [| split]].
  - apply (Hsix _ Hb eq_refl). simpl. lia.
  - intros H. apply (Hseven _ Hb eq_refl) in H. simpl in H. lia.
  - apply Hnone. reflexivity.
  - apply (Hplain {| user := alice; timestamp := 1000; rememberMe := false |});
      [apply getSession_saveSession; reflexivity | reflexivity].
Defined.

(** * Further properties of the scripts *)

(** ** The session gate *)

Lemma items_script_unauthenticated put r w :
  php_session w = None -> run (items_script put r) w = (unauthorized, w).
Proof.
  intros H. unfold run, items_script, bind, getCurrentUserId. rewrite H. reflexivity.
Qed.

(** ** No request touches the rows of another user *)

Lemma same_for_others_refl userId d : same_for_others userId d d.
Proof. repeat split. Qed.

Lemma same_for_others_trans userId d1 d2 d3 :
  same_for_others userId d1 d2 -> same_for_others userId d2 d3 ->
  same_for_others userId d1 d3.
Proof.
  intros (H1 & H2 & H3) (H4 & H5 & H6). repeat split; congruence.
Qed.

Lemma respects_ret {A} userId (a : A) : respects userId (ret a).
Proof. intros w Hs. split; [apply same_for_others_refl | exact Hs]. Qed.

Lemma respects_send {A} userId b code :
  respects userId (@sendJsonResponse A b code).
Proof. intros w Hs. split; [apply same_for_others_refl | exact Hs]. Qed.

Lemma respects_bind {A B} userId (m : php A) (k : A -> php B) :
  respects userId m -> (forall a, respects userId (k a)) ->
  respects userId (bind m k).
Proof.
  intros Hm Hk w Hs. unfold bind.
  destruct (Hm w Hs) as [H1 H2].
  destruct (m w) as [[a | r | msg |] w1]; cbn [snd] in *; auto.
  destruct (Hk a w1 H2) as [H3 H4].
  split; [eapply same_for_others_trans; eassumption | exact H4].
Qed.

Lemma respects_try_catch {A} userId (m : php A) (h : string -> php A) :
  respects userId m -> (forall msg, respects userId (h msg)) ->
  respects userId (try_catch m h).
Proof.
  intros Hm Hh w Hs. unfold try_catch.
  destruct (Hm w Hs) as [H1 H2].
  destruct (m w) as [[a | r | msg |] w1]; cbn [snd] in *; auto.
  destruct (Hh msg w1 H2) as [H3 H4].
  split; [eapply same_for_others_trans; eassumption | exact H4].
Qed.

(** A statement that keeps the rows of the others keeps them when it runs,
    and when it throws instead. *)
Lemma respects_execute {A} userId (stmt : database -> A * database) :
  (forall d, same_for_others userId d (snd (stmt d))) ->
  respects userId (execute stmt).
Proof.
  intros Hstmt w Hs. unfold execute, snapshot_agrees in *.
  specialize (Hstmt (db w)).
  destruct (db_faults w) as [| [msg |] rest]; try destruct (stmt (db w)) as [a d];
    cbn [snd db set_db set_faults transaction] in *.
  - split; [exact Hstmt |].
    destruct (transaction w); [| exact I]. destruct Hstmt as [-> _]. exact Hs.
  - split; [apply same_for_others_refl | exact Hs].
  - split; [exact Hstmt |].
    destruct (transaction w); [| exact I]. destruct Hstmt as [-> _]. exact Hs.
Qed.

Lemma respects_execute_malformed {A} userId : respects userId (@execute_malformed A).
Proof.
  intros w Hs. unfold execute_malformed.
  destruct (db_faults w) as [| [msg |] rest]; cbn [snd];
    (split; [apply same_for_others_refl | exact Hs]).
Qed.

Lemma respects_getDB userId : respects userId getDB.
Proof.
  intros w Hs. unfold getDB.
  destruct (db_connect_error w); (split; [apply same_for_others_refl | exact Hs]).
Qed.

Lemma respects_beginTransaction userId : respects userId beginTransaction.
Proof.
  intros w Hs. unfold beginTransaction, snapshot_agrees; cbn.
  split; [apply same_for_others_refl | reflexivity].
Qed.

Lemma respects_commit userId : respects userId commit.
Proof.
  intros w Hs. unfold commit, snapshot_agrees; cbn.
  split; [apply same_for_others_refl | exact I].
Qed.

Lemma respects_rollBack userId : respects userId rollBack.
Proof.
  intros w Hs. unfold rollBack, snapshot_agrees in *.
  destruct (transaction w) as [rows |] eqn:E; cbn [snd].
  - cbn. split; [| exact I]. repeat split. exact Hs.
  - rewrite E. split; [apply same_for_others_refl | exact I].
Qed.

(** The statements of the scripts. *)

Lemma others_app userId l1 l2 :
  others userId (l1 ++ l2) = others userId l1 ++ others userId l2.
Proof. apply filter_app. Qed.

Lemma others_delete userId (cond : item_row -> bool) rows :
  (forall r, cond r = true -> owned_by userId r = true) ->
  others userId (filter (fun r => cond r = false) rows) = others userId rows.
Proof.
  intros Hc. unfold others.
  induction rows as [| r rows IH]; [reflexivity |].
  destruct (cond r) eqn:E.
  - rewrite (filter_cons_False (fun r => cond r = false)) by congruence.
    rewrite (filter_cons_False (fun r => owned_by userId r = false))
      by (rewrite (Hc r E); discriminate).
    exact IH.
  - rewrite (filter_cons_True (fun r => cond r = false)) by exact E.
    destruct (owned_by userId r) eqn:Eo.
    + rewrite !(filter_cons_False (fun r => owned_by userId r = false)) by congruence.
      exact IH.
    + rewrite !(filter_cons_True (fun r => owned_by userId r = false)) by exact Eo.
      rewrite IH. reflexivity.
Qed.

Lemma others_update userId (cond : item_row -> bool) (set : item_row -> item_row) rows :
  (forall r, In r rows -> cond r = true -> owned_by userId r = true) ->
  (forall r, i_user_id (set r) = i_user_id r) ->
  others userId (map (fun r => if cond r then set r else r) rows) = others userId rows.
Proof.
  intros Hc Hset. unfold others.
  induction rows as [| r rows IH]; [reflexivity |].
  cbn [map].
  assert (IH' := IH (fun x Hx => Hc x (or_intror Hx))).
  destruct (cond r) eqn:E.
  - assert (Ho : owned_by userId r = true) by (apply Hc; [left; reflexivity | exact E]).
    assert (Ho' : owned_by userId (set r) = true)
      by (unfold owned_by in *; rewrite Hset; exact Ho).
    rewrite !filter_cons_False by congruence. exact IH'.
  - destruct (owned_by userId r) eqn:Eo.
    + rewrite !filter_cons_False by congruence. exact IH'.
    + rewrite !filter_cons_True by exact Eo. rewrite IH'. reflexivity.
Qed.

Lemma sql_delete_same userId cond :
  (forall r, cond r = true -> owned_by userId r = true) ->
  forall d, same_for_others userId d (snd (sql_delete cond d)).
Proof.
  intros Hc d. unfold same_for_others, sql_delete, set_items;
    cbn [snd shopping_items users next_user_id].
  repeat split. apply others_delete, Hc.
Qed.

Lemma sql_insert_same userId text quantity unit description completed now d :
  same_for_others userId d
    (snd (sql_insert_item userId text quantity unit description completed now d)).
Proof.
  unfold same_for_others, sql_insert_item; cbn [snd shopping_items users next_user_id].
  repeat split.
  rewrite others_app. unfold others at 2.
  rewrite filter_cons_False, filter_nil, app_nil_r; [reflexivity |].
  unfold owned_by, new_row; cbn. rewrite Z.eqb_refl. discriminate.
Qed.

Lemma sql_update_same userId cond set :
  (forall r, cond r = true -> owned_by userId r = true) ->
  (forall r, i_user_id (set r) = i_user_id r) ->
  forall d, same_for_others userId d (snd (sql_update cond set d)).
Proof.
  intros Hc Hset d. unfold same_for_others, sql_update, set_items;
    cbn [snd shopping_items users next_user_id].
  repeat split. apply others_update; auto.
Qed.

Lemma respects_items_get userId : respects userId (items_get userId).
Proof.
  apply respects_bind; [| intros; apply respects_send].
  apply respects_execute. intros d. apply same_for_others_refl.
Qed.

Lemma respects_items_post userId r : respects userId (items_post userId r).
Proof.
  unfold items_post.
  destruct (req_body r) as [data |]; [| apply respects_send].
  destruct (php_empty _); [apply respects_send |].
  destruct (_ <? 1); [apply respects_send |].
  apply respects_bind; [apply respects_execute; intros d; apply sql_insert_same |].
  intros itemId. apply respects_bind.
  - apply respects_execute. intros d. apply same_for_others_refl.
  - intros [row |]; apply respects_send.
Qed.

Lemma respects_items_delete userId r : respects userId (items_delete userId r).
Proof.
  unfold items_delete.
  destruct (truthy_id (req_id r)) as [itemId |].
  - apply respects_bind.
    + apply respects_execute, sql_delete_same. intros row H; apply andb_true_iff in H; tauto.
    + intros [| n]; apply respects_send.
  - destruct (action_is r "remove_checked").
    + apply respects_bind; [| intros; apply respects_send].
      apply respects_execute, sql_delete_same. intros row H; apply andb_true_iff in H; tauto.
    + destruct (action_is r "clear"); [| apply respects_send].
      apply respects_bind; [| intros; apply respects_send].
      apply respects_execute, sql_delete_same. auto.
Qed.

Lemma respects_part_000_update userId itemId r :
  respects userId (part_000_update userId itemId r).
Proof.
  unfold part_000_update.
  destruct (req_body r) as [data |].
  - destruct (no_fields (b_fields data)); [apply respects_execute_malformed |].
    apply respects_bind.
    + apply respects_execute, sql_update_same; [| reflexivity].
      intros row H; apply andb_true_iff in H; tauto.
    + intros [| n]; apply respects_send.
  - intros w Hs. split; [apply same_for_others_refl | exact Hs].
Qed.

Lemma respects_validate_items userId items : respects userId (validate_items items).
Proof.
  induction items as [| item rest IH]; cbn [validate_items].
  - apply respects_ret.
  - destruct (validate_item item); [apply respects_send | exact IH].
Qed.

Lemma respects_insert_items userId now items :
  respects userId (insert_items userId now items).
Proof.
  induction items as [| item rest IH]; cbn [insert_items].
  - apply respects_ret.
  - apply respects_bind; [| intros; exact IH].
    apply respects_execute. intros d. apply sql_insert_same.
Qed.

Lemma respects_replace_list userId r : respects userId (replace_list userId r).
Proof.
  unfold replace_list.
  destruct (req_body r) as [data |]; [| apply respects_send].
  apply respects_bind; [apply respects_validate_items |]. intros _.
  apply respects_try_catch.
  - apply respects_bind; [apply respects_beginTransaction |]. intros _.
    apply respects_bind;
      [apply respects_execute, sql_delete_same; auto |]. intros _.
    apply respects_bind; [apply respects_insert_items |]. intros _.
    apply respects_bind; [apply respects_commit |]. intros _.
    apply respects_send.
  - intros msg. apply respects_bind; [apply respects_rollBack |]. intros _.
    apply respects_send.
Qed.

Lemma respects_part_000_put userId r : respects userId (part_000_put userId r).
Proof.
  unfold part_000_put.
  destruct (truthy_id (req_id r)) as [itemId |].
  - apply respects_part_000_update.
  - destruct (action_is r "replace");
      [apply respects_replace_list | apply respects_items_delete].
Qed.

Lemma respects_on_weaken {A} (P : world -> Prop) userId (m : php A) :
  respects userId m -> respects_on P userId m.
Proof. intros H w _. apply H. Qed.

Lemma respects_on_switch (P : world -> Prop) put userId r :
  respects_on P userId (put userId r) ->
  respects_on P userId (items_switch put userId r).
Proof.
  intros Hput. unfold items_switch.
  destruct (String.eqb (req_method r) "GET");
    [apply respects_on_weaken, respects_items_get |].
  destruct (String.eqb (req_method r) "POST");
    [apply respects_on_weaken, respects_items_post |].
  destruct (String.eqb (req_method r) "PUT"); [exact Hput |].
  destruct (String.eqb (req_method r) "DELETE");
    [apply respects_on_weaken, respects_items_delete |].
  apply respects_on_weaken, respects_send.
Qed.

(** The frame: the [catch] only sends. *)
Lemma respects_on_script (P : world -> Prop) put r userId w :
  respects_on P userId (put userId r) ->
  authenticated w userId -> P w -> snapshot_agrees userId w ->
  same_for_others userId (db w) (db (snd (run (items_script put r) w))).
Proof.
  intros Hput Hauth HP Hs.
  assert (Hrun : db (snd (run (items_script put r) w)) = db (snd (items_script put r w))).
  { unfold run. destruct (items_script put r w) as [[| | |] ?]; reflexivity. }
  rewrite Hrun, (items_script_authenticated _ _ _ _ Hauth).
  unfold try_catch.
  destruct (respects_on_switch P put userId r Hput w HP Hs) as [H1 H2].
  destruct (items_switch put userId r w) as [[a | resp | msg |] w1]; cbn [snd] in *;
    exact H1.
Qed.

Lemma select_owned_some d userId id x :
  fst (sql_select_owned id userId d) = Some x -> owns d userId id.
Proof.
  unfold sql_select_owned, owns; cbn [fst]. intros H.
  destruct (List.find _ (shopping_items d)) as [row |] eqn:E; [| discriminate].
  apply List.find_some in E as [Hin Hc].
  apply andb_true_iff in Hc as [H1 H2].
  apply Z.eqb_eq in H1. apply Z.eqb_eq in H2.
  apply Exists_exists. exists row.
  split; [first [exact Hin | apply list_elem_of_In; exact Hin] | split; assumption].
Qed.

(** With [id] a key, the row a user owns under an identifier is the only
    row with that identifier. *)
Lemma unique_id_owned d userId id :
  unique_ids d -> owns d userId id ->
  forall r, In r (shopping_items d) -> (i_id r =? id) = true -> owned_by userId r = true.
Proof.
  unfold unique_ids, owns. intros Hu Ho r Hin Hid. apply Z.eqb_eq in Hid.
  apply Exists_exists in Ho as (r0 & Hin0 & Hid0 & Hu0).
  try apply list_elem_of_In in Hin0.
  assert (Heq : r = r0);
    [| rewrite Heq; unfold owned_by; apply Z.eqb_eq; exact Hu0].
  revert Hu Hin Hin0. generalize (shopping_items d) as rows.
  induction rows as [| x rows IH]; cbn [map]; intros Hnd Hin Hin0; [contradiction |].
  apply NoDup_cons_1_1 in Hnd as Hx. apply NoDup_cons_1_2 in Hnd.
  destruct Hin as [-> | Hin], Hin0 as [-> | Hin0].
  - reflexivity.
  - exfalso. apply Hx. apply list_elem_of_In. apply in_map_iff.
    exists r0. split; [congruence | exact Hin0].
  - exfalso. apply Hx. apply list_elem_of_In. apply in_map_iff.
    exists r. split; [congruence | exact Hin].
  - apply IH; assumption.
Qed.

Lemma respects_on_bind {A B} (P : world -> Prop) userId (m : php A) (k : A -> php B) :
  respects_on P userId m -> (forall a, respects userId (k a)) ->
  respects_on P userId (bind m k).
Proof.
  intros Hm Hk w HP Hs. unfold bind.
  destruct (Hm w HP Hs) as [H1 H2].
  destruct (m w) as [[a | r | msg |] w1]; cbn [snd] in *; auto.
  destruct (Hk a w1 H2) as [H3 H4].
  split; [eapply same_for_others_trans; eassumption | exact H4].
Qed.

(** The UPDATE of [items.php] names the row by its identifier alone; it
    runs after the ownership check on the same tables. *)
Lemma respects_on_items_update userId itemId d0 set :
  unique_ids d0 -> owns d0 userId itemId ->
  (forall r, i_user_id (set r) = i_user_id r) ->
  respects_on (fun w => db w = d0) userId
    (execute (sql_update (fun row => i_id row =? itemId) set)).
Proof.
  intros Hu Ho Hset w Hdb Hs. subst d0.
  assert (Hsame : same_for_others userId (db w)
                    (snd (sql_update (fun row => i_id row =? itemId) set (db w)))).
  { unfold same_for_others, sql_update, set_items;
      cbn [snd shopping_items users next_user_id].
    repeat split. apply others_update; [| exact Hset].
    apply (unique_id_owned (db w) userId itemId Hu Ho). }
  unfold execute, snapshot_agrees in *.
  destruct (db_faults w) as [| [msg |] rest];
    try destruct (sql_update _ _ (db w)) as [n d];
    cbn [snd db set_db set_faults transaction] in *.
  - split; [exact Hsame |].
    destruct (transaction w); [| exact I]. destruct Hsame as [-> _]. exact Hs.
  - split; [apply same_for_others_refl | exact Hs].
  - split; [exact Hsame |].
    destruct (transaction w); [| exact I]. destruct Hsame as [-> _]. exact Hs.
Qed.

Lemma respects_at {A} userId (m : php A) w o w' :
  respects userId m -> snapshot_agrees userId w -> m w = (o, w') ->
  same_for_others userId (db w) (db w') /\ snapshot_agrees userId w'.
Proof. intros Hm Hs E. specialize (Hm w Hs). rewrite E in Hm. exact Hm. Qed.

Lemma respects_on_at {A} (P : world -> Prop) userId (m : php A) w o w' :
  respects_on P userId m -> P w -> snapshot_agrees userId w -> m w = (o, w') ->
  same_for_others userId (db w) (db w') /\ snapshot_agrees userId w'.
Proof. intros Hm HP Hs E. specialize (Hm w HP Hs). rewrite E in Hm. exact Hm. Qed.

Lemma respects_on_items_put userId r :
  respects_on (fun w => unique_ids (db w)) userId (items_put userId r).
Proof.
  intros w Hu Hs.
  destruct (items_put userId r w) as [o w'] eqn:E. cbn [snd].
  unfold items_put in E.
  destruct (truthy_id (req_id r)) as [itemId |];
    [| exact (respects_at _ _ _ _ _ (respects_send _ _ _) Hs E)].
  destruct (req_body r) as [data |];
    [| exact (respects_at _ _ _ _ _ (respects_send _ _ _) Hs E)].
  unfold bind at 1 in E.
  destruct (execute_cases (sql_select_owned itemId userId) w) as [[msg H] | H];
    rewrite H in E.
  { injection E as <- <-. split; [apply same_for_others_refl | exact Hs]. }
  destruct (fst (sql_select_owned itemId userId (db w))) as [x |] eqn:Efound.
  2: { unfold sendJsonResponse in E. injection E as <- <-.
       split; [apply same_for_others_refl | exact Hs]. }
  apply select_owned_some in Efound.
  set (w1 := set_db _ _) in E.
  assert (Hdb : db w1 = db w) by reflexivity.
  assert (Hs1 : snapshot_agrees userId w1) by exact Hs.
  rewrite <- Hdb.
  assert (Hupd : forall text quantity,
            @respects_on unit (fun w' => db w' = db w) userId
              (let* _ := execute (sql_update (fun row => i_id row =? itemId)
                                    (items_set text quantity
                                       (option_map strval (f_unit (b_fields data)))
                                       (option_map trim (f_description (b_fields data)))
                                       (f_completed (b_fields data)) (req_now r))) in
               sendJsonResponse (MessageBody "Item updated successfully") 200)).
  { intros text quantity. apply respects_on_bind; [| intros; apply respects_send].
    apply respects_on_items_update; [exact Hu | exact Efound | reflexivity]. }
  destruct (f_text (b_fields data)) as [t |];
    [destruct (php_empty (trim t));
     [exact (respects_at _ _ _ _ _ (respects_send _ _ _) Hs1 E) |] |];
    (destruct (f_quantity (b_fields data)) as [q |];
     [destruct (q <? 1);
      [exact (respects_at _ _ _ _ _ (respects_send _ _ _) Hs1 E) |] |]);
    unfold bind at 1 in E; unfold ret at 1 in E;
    unfold bind at 1 in E; unfold ret at 1 in E;
    (destruct (no_fields (b_fields data));
     [exact (respects_at _ _ _ _ _ (respects_send _ _ _) Hs1 E) |]);
    exact (respects_on_at _ _ _ _ _ _ (Hupd _ _) Hdb Hs1 E).
Qed.

(** X1: in the revision with the bulk replace, no request of an
    authenticated user, whatever its method, query parameters and body and
    whatever storage faults occur, changes or removes a row of another
    user, or adds one; the table of users is left as it is. *)
Theorem part_000_keeps_rows_of_other_users r w userId :
  authenticated w userId ->
  transaction w = None ->
  others userId (shopping_items (db (snd (run (part_000_php r) w))))
  = others userId (shopping_items (db w))
  /\ users (db (snd (run (part_000_php r) w))) = users (db w).
Proof.
  intros Hauth Htx.
  destruct (respects_on_script (fun _ => True) part_000_put r userId w) as (H1 & H2 & _).
  - apply respects_on_weaken, respects_part_000_put.
  - exact Hauth.
  - exact I.
  - unfold snapshot_agrees. rewrite Htx. exact I.
  - split; assumption.
Qed.

Lemma part_000_keeps_rows_of_other_users_witness :
  let w := set_faults [None; None; Some gone_away] sample_world in
  others 7 (shopping_items
              (db (snd (run (part_000_php (replaceShoppingList (Some good_batch) 300)) w))))
  = [sample_row 2 8 "Salt" false 110].
Proof.
  intros w.
  destruct (part_000_keeps_rows_of_other_users
              (replaceShoppingList (Some good_batch) 300) w 7
              (conj eq_refl eq_refl) eq_refl) as [H _].
  rewrite H. reflexivity.
Defined.

(** X2: in [items.php], where the UPDATE names the row by its identifier
    alone, the same holds once identifiers are unique in the table. *)
Theorem items_php_keeps_rows_of_other_users r w userId :
  authenticated w userId ->
  transaction w = None ->
  unique_ids (db w) ->
  others userId (shopping_items (db (snd (run (items_php r) w))))
  = others userId (shopping_items (db w))
  /\ users (db (snd (run (items_php r) w))) = users (db w).
Proof.
  intros Hauth Htx Hu.
  destruct (respects_on_script (fun w => unique_ids (db w)) items_put r userId w)
    as (H1 & H2 & _).
  - apply respects_on_items_put.
  - exact Hauth.
  - exact Hu.
  - unfold snapshot_agrees. rewrite Htx. exact I.
  - split; assumption.
Qed.

Lemma items_php_keeps_rows_of_other_users_witness :
  others 7 (shopping_items
              (db (snd (run (items_php (updateItem 2 (text_only "Sugar") 300)) sample_world))))
  = [sample_row 2 8 "Salt" false 110].
Proof.
  destruct (items_php_keeps_rows_of_other_users
              (updateItem 2 (text_only "Sugar") 300) sample_world 7
              (conj eq_refl eq_refl) eq_refl) as [H _].
  - apply (bool_decide_unpack _). vm_compute. reflexivity.
  - rewrite H. reflexivity.
Defined.

(** ** Deleting *)

Lemma filter_cond_none (cond : item_row -> bool) rows :
  (forall r, In r rows -> cond r = false) ->
  filter (fun r => cond r = true) rows = []
  /\ filter (fun r => cond r = false) rows = rows.
Proof.
  induction rows as [| r rows IH]; intros H; [split; reflexivity |].
  destruct IH as [IH1 IH2]; [intros x Hx; apply H; right; exact Hx |].
  assert (Hr : cond r = false) by (apply H; left; reflexivity).
  rewrite filter_cons_False by congruence.
  rewrite filter_cons_True by exact Hr.
  rewrite IH1, IH2. split; reflexivity.
Qed.

Lemma filter_cond_some (cond : item_row -> bool) rows r :
  In r rows -> cond r = true ->
  exists n, length (filter (fun r => cond r = true) rows) = S n.
Proof.
  induction rows as [| x rows IH]; intros Hin Hc; [contradiction |].
  destruct (cond x) eqn:E.
  - rewrite filter_cons_True by exact E. eexists. reflexivity.
  - rewrite filter_cons_False by congruence.
    destruct Hin as [-> | Hin]; [congruence | auto].
Qed.

Lemma owns_cond d userId id :
  owns d userId id
  <-> exists r, In r (shopping_items d) /\ ((i_id r =? id) && owned_by userId r) = true.
Proof.
  unfold owns, owned_by. rewrite Exists_exists. split.
  - intros (r & Hin & Hid & Hu). exists r.
    split; [first [exact Hin | apply list_elem_of_In; exact Hin] |].
    rewrite andb_true_iff, !Z.eqb_eq. auto.
  - intros (r & Hin & Hc). exists r.
    rewrite andb_true_iff, !Z.eqb_eq in Hc.
    split; [first [exact Hin | apply list_elem_of_In; exact Hin] | exact Hc].
Qed.

Lemma items_delete_run put w userId id now :
  authenticated w userId ->
  db_faults w = [] ->
  id <> 0 ->
  run (items_script put (deleteItem id now)) w
  = (match length (filter (fun r => ((i_id r =? id) && owned_by userId r) = true)
                     (shopping_items (db w))) with
     | O => not_found
     | S _ => deleted_ok
     end,
     set_db (set_items
               (filter (fun r => ((i_id r =? id) && owned_by userId r) = false)
                  (shopping_items (db w))) (db w)) w).
Proof.
  intros Hauth Hf Hid.
  unfold run. rewrite (items_script_authenticated _ _ _ _ Hauth).
  unfold try_catch, items_switch, deleteItem, items_delete;
    cbn [req_method req_id truthy_id String.eqb Ascii.eqb Bool.eqb].
  destruct (id =? 0) eqn:E; [apply Z.eqb_eq in E; contradiction |].
  unfold bind. rewrite execute_no_faults by exact Hf.
  unfold sql_delete; cbn [fst snd].
  destruct (length _); reflexivity.
Qed.

(** X3: deleting by identifier, on a working store.  When the caller owns
    an item with that identifier the answer is the success message and the
    table loses exactly the caller's rows with that identifier, every other
    row staying in place; otherwise the answer is 404 and nothing
    changes. *)
Theorem delete_item_removes_only_that_item put w userId id now :
  authenticated w userId ->
  db_faults w = [] ->
  id <> 0 ->
  let result := run (items_script put (deleteItem id now)) w in
  (owns (db w) userId id ->
     fst result = deleted_ok
     /\ shopping_items (db (snd result))
        = filter (fun r => ((i_id r =? id) && owned_by userId r) = false)
            (shopping_items (db w))
     /\ ~ owns (db (snd result)) userId id)
  /\ (~ owns (db w) userId id -> result = (not_found, w)).
Proof.
  intros Hauth Hf Hid result. subst result.
  rewrite (items_delete_run _ _ _ _ _ Hauth Hf Hid).
  split.
  - intros Ho. apply owns_cond in Ho as (r & Hin & Hc).
    destruct (filter_cond_some (fun r => (i_id r =? id) && owned_by userId r) _ r Hin Hc)
      as [n Hn]. rewrite Hn.
    cbn [fst snd db set_db shopping_items set_items].
    split; [reflexivity |]. split; [reflexivity |].
    intros Ho'. apply owns_cond in Ho' as (x & Hx & Hcx).
    cbn [db set_db shopping_items set_items] in Hx.
    apply list_elem_of_In, list_elem_of_filter in Hx as [Hx _]. congruence.
  - intros Hno.
    assert (Hall : forall r, In r (shopping_items (db w)) ->
                             ((i_id r =? id) && owned_by userId r) = false).
    { intros r Hin. destruct ((i_id r =? id) && owned_by userId r) eqn:E; [| reflexivity].
      exfalso. apply Hno, owns_cond. eauto. }
    destruct (filter_cond_none (fun r => (i_id r =? id) && owned_by userId r) _ Hall)
      as [H1 H2].
    rewrite H1, H2, set_items_same, set_db_same. reflexivity.
Qed.

Lemma delete_item_removes_only_that_item_witness :
  shopping_items (db (snd (run (items_php (deleteItem 3 300)) sample_world)))
  = [sample_row 1 7 "Milk" false 100; sample_row 2 8 "Salt" false 110;
     sample_row 4 7 "Tea" false 130]
  /\ run (items_php (deleteItem 2 300)) sample_world = (not_found, sample_world).
Proof.
  destruct (delete_item_removes_only_that_item items_put sample_world 7 3 300
              (conj eq_refl eq_refl) eq_refl) as [Hown _]; [discriminate |].
  destruct (delete_item_removes_only_that_item items_put sample_world 7 2 300
              (conj eq_refl eq_refl) eq_refl) as [_ Hother]; [discriminate |].
  split.
  - destruct Hown as (_ & H & _).
    + apply Exists_cons_tl, Exists_cons_tl, Exists_cons_hd. split; reflexivity.
    + unfold items_php. rewrite H. reflexivity.
  - apply Hother. intros H.
    apply owns_cond in H as (r & Hin & Hc). simpl in Hin.
    destruct Hin as [<- | [<- | [<- | [<- | []]]]]; discriminate Hc.
Defined.

Lemma items_get_run put w userId now :
  authenticated w userId ->
  db_faults w = [] ->
  run (items_script put (getShoppingList now)) w
  = ({| status := 200;
        content := ItemsBody (map fetch_columns
                                (order_by (owned userId (shopping_items (db w))))) |}, w).
Proof.
  intros Hauth Hf. unfold run. rewrite (items_script_authenticated _ _ _ _ Hauth).
  unfold try_catch, items_switch, getShoppingList; simpl.
  unfold items_get, bind. rewrite execute_no_faults by exact Hf.
  simpl. rewrite set_db_same. reflexivity.
Qed.

Lemma remove_checked_run put w userId now :
  authenticated w userId ->
  db_faults w = [] ->
  run (items_script put (removeCheckedItems now)) w
  = ({| status := 200;
        content := MessageBody
                     (count_message
                        (length (filter (fun r => (owned_by userId r && i_completed r) = true)
                                   (shopping_items (db w))))) |},
     set_db (set_items
               (filter (fun r => (owned_by userId r && i_completed r) = false)
                  (shopping_items (db w))) (db w)) w).
Proof.
  intros Hauth Hf. unfold run. rewrite (items_script_authenticated _ _ _ _ Hauth).
  unfold try_catch, items_switch, removeCheckedItems, items_delete; simpl.
  unfold bind. rewrite execute_no_faults by exact Hf. reflexivity.
Qed.

Lemma clear_run put w userId now :
  authenticated w userId ->
  db_faults w = [] ->
  run (items_script put (clearList now)) w
  = ({| status := 200;
        content := MessageBody
                     (count_message (length (owned userId (shopping_items (db w))))) |},
     set_db (set_items (others userId (shopping_items (db w))) (db w)) w).
Proof.
  intros Hauth Hf. unfold run. rewrite (items_script_authenticated _ _ _ _ Hauth).
  unfold try_catch, items_switch, clearList, items_delete; simpl.
  unfold bind. rewrite execute_no_faults by exact Hf. reflexivity.
Qed.

Ltac as_elem_of H :=
  match type of H with
  | In _ _ => apply list_elem_of_In in H
  | _ => idtac
  end.

Lemma authenticated_set_db w userId d :
  authenticated w userId -> authenticated (set_db d w) userId.
Proof. intros H. exact H. Qed.

Lemma owned_others userId rows : owned userId (others userId rows) = [].
Proof. apply filter_owned_others. Qed.

(** X4: removing the checked items, on a working store.  The answer
    reports the number of the caller's completed rows; afterwards the table
    holds the rows that were not completed rows of the caller, in place, so
    the caller has no completed row left and the list request that follows
    returns only incomplete items. *)
Theorem remove_checked_leaves_no_completed_item put w userId now later :
  authenticated w userId ->
  db_faults w = [] ->
  let result := run (items_script put (removeCheckedItems now)) w in
  fst result
  = {| status := 200;
       content := MessageBody
                    (count_message
                       (length (filter (fun r => i_completed r = true)
                                  (owned userId (shopping_items (db w)))))) |}
  /\ shopping_items (db (snd result))
     = filter (fun r => (owned_by userId r && i_completed r) = false)
         (shopping_items (db w))
  /\ Forall (fun r => i_completed r = false)
       (owned userId (shopping_items (db (snd result))))
  /\ exists listed,
       fst (run (items_script put (getShoppingList later)) (snd result))
       = {| status := 200; content := ItemsBody listed |}
       /\ Forall (fun item => j_completed item = false) listed.
Proof.
  intros Hauth Hf result. subst result.
  rewrite (remove_checked_run _ _ _ _ Hauth Hf).
  cbn [fst snd db set_db shopping_items set_items].
  assert (Hinc : Forall (fun r => i_completed r = false)
                   (owned userId
                      (filter (fun r => (owned_by userId r && i_completed r) = false)
                         (shopping_items (db w))))).
  { apply Forall_forall. intros r Hr. as_elem_of Hr.
    unfold owned in Hr. apply list_elem_of_filter in Hr as [Ho Hr].
    apply list_elem_of_filter in Hr as [Hc _].
    rewrite Ho in Hc. exact Hc. }
  split; [| split; [reflexivity | split; [exact Hinc |]]].
  - do 3 f_equal. unfold owned. rewrite list_filter_filter.
    apply (f_equal (@length _)). apply list_filter_iff. intros r.
    rewrite andb_true_iff. tauto.
  - rewrite (items_get_run put _ userId later);
      [| exact Hauth | destruct w; exact Hf].
    eexists. split; [reflexivity |].
    cbn [db set_db shopping_items set_items].
    apply Forall_forall. intros item Hitem. as_elem_of Hitem.
    apply list_elem_of_In, in_map_iff in Hitem as (r & <- & Hr).
    as_elem_of Hr. rewrite (order_by_perm _) in Hr.
    rewrite Forall_forall in Hinc. cbn [fetch_columns j_completed].
    first [apply Hinc; exact Hr | apply Hinc, list_elem_of_In; exact Hr].
Qed.

Lemma remove_checked_leaves_no_completed_item_witness :
  fst (run (items_php (removeCheckedItems 300)) sample_world)
  = {| status := 200; content := MessageBody "1 items deleted successfully" |}
  /\ shopping_items (db (snd (run (items_php (removeCheckedItems 300)) sample_world)))
     = [sample_row 1 7 "Milk" false 100; sample_row 2 8 "Salt" false 110;
        sample_row 4 7 "Tea" false 130].
Proof.
  destruct (remove_checked_leaves_no_completed_item items_put sample_world 7 300 400
              (conj eq_refl eq_refl) eq_refl) as (H1 & H2 & _).
  split.
  - unfold items_php. rewrite H1. reflexivity.
  - unfold items_php. rewrite H2. reflexivity.
Defined.

(** X5: clearing the list, on a working store.  The answer reports the
    number of the caller's rows; afterwards the table holds exactly the rows
    of the other users, and the list request that follows returns the empty
    list. *)
Theorem clear_then_list_is_empty put w userId now later :
  authenticated w userId ->
  db_faults w = [] ->
  let result := run (items_script put (clearList now)) w in
  fst result
  = {| status := 200;
       content := MessageBody
                    (count_message (length (owned userId (shopping_items (db w))))) |}
  /\ shopping_items (db (snd result)) = others userId (shopping_items (db w))
  /\ run (items_script put (getShoppingList later)) (snd result)
     = ({| status := 200; content := ItemsBody [] |}, snd result).
Proof.
  intros Hauth Hf result. subst result.
  rewrite (clear_run _ _ _ _ Hauth Hf).
  cbn [fst snd]. split; [reflexivity |]. split; [reflexivity |].
  rewrite (items_get_run put _ userId later); [| exact Hauth | destruct w; exact Hf].
  cbn [db set_db shopping_items set_items]. rewrite owned_others. reflexivity.
Qed.

Lemma clear_then_list_is_empty_witness :
  let cleared := snd (run (items_php (clearList 300)) sample_world) in
  shopping_items (db cleared) = [sample_row 2 8 "Salt" false 110]
  /\ fst (run (items_php (getShoppingList 400)) cleared)
     = {| status := 200; content := ItemsBody [] |}.
Proof.
  intros cleared. subst cleared.
  destruct (clear_then_list_is_empty items_put sample_world 7 300 400
              (conj eq_refl eq_refl) eq_refl) as (_ & H2 & H3).
  split.
  - unfold items_php. rewrite H2. reflexivity.
  - unfold items_php. rewrite H3. reflexivity.
Defined.

(** ** Adding, then listing or deleting *)

Lemma filter_fresh_row userId (rows : list item_row) (row : item_row) id :
  Forall (fun r => i_id r < id) rows ->
  i_id row = id -> i_user_id row = userId ->
  filter (fun r => ((i_id r =? id) && owned_by userId r) = false) (rows ++ [row]) = rows
  /\ length (filter (fun r => ((i_id r =? id) && owned_by userId r) = true)
               (rows ++ [row])) = 1%nat.
Proof.
  intros Hrows Hid Hu.
  assert (Hrow : ((i_id row =? id) && owned_by userId row) = true).
  { unfold owned_by. rewrite Hid, Hu, !Z.eqb_refl. reflexivity. }
  rewrite !filter_app.
  rewrite (filter_cons_False _ row []) by (rewrite Hrow; discriminate).
  rewrite (filter_cons_True _ row []) by exact Hrow.
  rewrite !filter_nil, app_nil_r.
  destruct (filter_cond_none (fun r => (i_id r =? id) && owned_by userId r) rows)
    as [H1 H2].
  { intros r Hr. rewrite Forall_forall in Hrows.
    assert (i_id r < id) by (first [apply Hrows; exact Hr
                                   | apply Hrows, list_elem_of_In; exact Hr]).
    destruct (i_id r =? id) eqn:E; [apply Z.eqb_eq in E; lia | reflexivity]. }
  rewrite H1, H2. split; reflexivity.
Qed.

Lemma items_post_no_faults_world userId item now w :
  db_faults w = [] ->
  fresh_counter (db w) ->
  php_empty (trim (default "" (f_text item))) = false ->
  1 <= default 1 (f_quantity item) ->
  items_post userId (addItem item now) w
  = (Exit {| status := 201;
             content := ItemBody (fetch_columns (added_row (db w) userId now item)) |},
     set_db {| shopping_items := shopping_items (db w) ++ [added_row (db w) userId now item];
               users := users (db w);
               next_item_id := next_item_id (db w) + 1;
               next_user_id := next_user_id (db w) |} w).
Proof.
  intros Hf Hfresh Htext Hq.
  unfold items_post, addItem; cbn [req_body b_fields req_now].
  rewrite Htext.
  destruct (default 1 (f_quantity item) <? 1) eqn:E; [apply Z.ltb_lt in E; lia |].
  unfold bind. rewrite execute_no_faults by exact Hf.
  cbn [fst snd sql_insert_item].
  rewrite execute_no_faults by (destruct w; exact Hf).
  cbn [fst snd sql_select_by_id db set_db shopping_items].
  fold (added_row (db w) userId now item).
  rewrite (find_fresh_row (shopping_items (db w)) (added_row (db w) userId now item)
             (next_item_id (db w)) Hfresh eq_refl).
  reflexivity.
Qed.

(** X6: adding and then listing or deleting, on a working store whose
    counter is positive and above every identifier.  After an accepted add
    request, the list request returns the created record among its items;
    and the delete request for the identifier the add answered with
    succeeds and leaves the rows of the table exactly as they were before
    the add. *)
Theorem add_then_list_then_delete put w userId item now later :
  authenticated w userId ->
  db_faults w = [] ->
  fresh_counter (db w) ->
  0 < next_item_id (db w) ->
  php_empty (trim (default "" (f_text item))) = false ->
  1 <= default 1 (f_quantity item) ->
  let added := run (items_script put (addItem item now)) w in
  exists created listed,
    fst added = {| status := 201; content := ItemBody created |}
    /\ fst (run (items_script put (getShoppingList later)) (snd added))
       = {| status := 200; content := ItemsBody listed |}
    /\ In created listed
    /\ fst (run (items_script put (deleteItem (j_id created) later)) (snd added))
       = deleted_ok
    /\ shopping_items
         (db (snd (run (items_script put (deleteItem (j_id created) later)) (snd added))))
       = shopping_items (db w).
Proof.
  intros Hauth Hf Hfresh Hpos Htext Hq added.
  assert (Hadded : added
                   = ({| status := 201;
                         content := ItemBody (fetch_columns (added_row (db w) userId now item)) |},
                      set_db {| shopping_items :=
                                  shopping_items (db w) ++ [added_row (db w) userId now item];
                                users := users (db w);
                                next_item_id := next_item_id (db w) + 1;
                                next_user_id := next_user_id (db w) |} w)).
  { subst added. unfold run. rewrite (items_post_run _ _ _ _ _ Hauth). unfold try_catch.
    rewrite (items_post_no_faults_world userId item now w Hf Hfresh Htext Hq).
    reflexivity. }
  rewrite Hadded. clear Hadded added. cbn [fst snd].
  set (w' := set_db _ w).
  assert (Hauth' : authenticated w' userId) by exact Hauth.
  assert (Hf' : db_faults w' = []) by (destruct w; exact Hf).
  exists (fetch_columns (added_row (db w) userId now item)).
  eexists. split; [reflexivity |].
  rewrite (items_get_run put w' userId later Hauth' Hf'). cbn [fst].
  split; [reflexivity |].
  split.
  { apply in_map. apply list_elem_of_In. rewrite (order_by_perm _).
    unfold owned. apply list_elem_of_filter. split.
    - unfold owned_by, added_row, new_row; cbn. apply Z.eqb_refl.
    - apply list_elem_of_In, in_or_app. right. left. reflexivity. }
  assert (Hid : j_id (fetch_columns (added_row (db w) userId now item)) <> 0).
  { cbn. lia. }
  rewrite (items_delete_run put w' userId _ later Hauth' Hf' Hid).
  subst w'. cbn [fst snd db set_db shopping_items set_items].
  destruct (filter_fresh_row userId (shopping_items (db w))
              (added_row (db w) userId now item) (next_item_id (db w)) Hfresh eq_refl eq_refl)
    as [H1 H2].
  cbn [j_id fetch_columns added_row new_row i_id].
  cbn [added_row new_row] in H1, H2.
  rewrite H1, H2. split; reflexivity.
Qed.

Lemma add_then_list_then_delete_witness :
  let added := run (items_php (addItem (sample_item "Milk" (Some 2) "l") 300)) sample_world in
  exists created listed,
    fst added = {| status := 201; content := ItemBody created |}
    /\ fst (run (items_php (getShoppingList 400)) (snd added))
       = {| status := 200; content := ItemsBody listed |}
    /\ In created listed
    /\ fst (run (items_php (deleteItem (j_id created) 400)) (snd added)) = deleted_ok
    /\ shopping_items
         (db (snd (run (items_php (deleteItem (j_id created) 400)) (snd added))))
       = shopping_items (db sample_world).
Proof.
  apply (add_then_list_then_delete items_put sample_world 7
           (sample_item "Milk" (Some 2) "l") 300 400 (conj eq_refl eq_refl) eq_refl).
  - repeat constructor.
  - reflexivity.
  - reflexivity.
  - simpl. lia.
Defined.

(** ** Edges of [case 'PUT'] *)

(** X7: in the revision with the bulk replace, a PUT request without an
    item identifier whose action is not "replace" is handled by the code of
    [case 'DELETE']: it has the answer and the effect of the same request
    sent with the method DELETE.  So a PUT with action "clear" deletes the
    caller's list. *)
Theorem part_000_put_falls_into_delete r w :
  req_method r = "PUT" ->
  truthy_id (req_id r) = None ->
  action_is r "replace" = false ->
  run (part_000_php r) w = run (part_000_php (with_method "DELETE" r)) w.
Proof.
  intros Hm Hid Ha.
  unfold run, part_000_php, items_script, bind.
  destruct (getCurrentUserId w) as [[[userId |] | resp | msg |] w1]; try reflexivity.
  destruct (getDB w1) as [[[] | resp | msg |] w2]; try reflexivity.
  unfold try_catch, items_switch, part_000_put.
  rewrite Hm, Hid, Ha. reflexivity.
Qed.

Lemma part_000_put_falls_into_delete_witness :
  shopping_items
    (db (snd (run (part_000_php (with_method "PUT" (clearList 300))) sample_world)))
  = [sample_row 2 8 "Salt" false 110]
  /\ fst (run (items_php (with_method "PUT" (clearList 300))) sample_world)
     = {| status := 400; content := ErrorBody "Valid item ID is required" |}.
Proof.
  split; [| reflexivity].
  rewrite (part_000_put_falls_into_delete (with_method "PUT" (clearList 300)) sample_world
             eq_refl eq_refl eq_refl).
  reflexivity.
Defined.

(** X8: an update that names none of text, quantity, unit, description and
    completed changes nothing.  [items.php] answers 400 "No fields to
    update" for an item of the caller; the revision with the bulk replace
    builds a statement the server cannot parse and answers the generic
    500. *)
Theorem update_without_fields_changes_nothing w userId id now :
  authenticated w userId ->
  db_faults w = [] ->
  id <> 0 ->
  (owns (db w) userId id ->
     run (items_php (updateItem id no_item_fields now)) w
     = ({| status := 400; content := ErrorBody "No fields to update" |}, w))
  /\ run (part_000_php (updateItem id no_item_fields now)) w
     = ({| status := 500; content := ErrorBody "Database error occurred" |}, w).
Proof.
  intros Hauth Hf Hid.
  assert (E : (id =? 0) = false) by (apply Z.eqb_neq; exact Hid).
  split.
  - intros Hown.
    unfold run, items_php. rewrite (items_put_run _ _ _ _ _ _ Hauth).
    unfold try_catch, items_put, updateItem; cbn [req_id req_body truthy_id b_fields].
    rewrite E. unfold bind at 1. rewrite execute_no_faults by exact Hf.
    rewrite (select_owned_found _ _ _ Hown).
    unfold sql_select_owned; cbn [snd]. rewrite set_db_same. reflexivity.
  - unfold run, part_000_php. rewrite (items_put_run _ _ _ _ _ _ Hauth).
    unfold try_catch, part_000_put, part_000_update, updateItem;
      cbn [req_id req_body truthy_id b_fields].
    rewrite E. cbn [no_fields no_item_fields f_text f_quantity f_unit f_description f_completed].
    unfold execute_malformed. rewrite Hf. reflexivity.
Qed.

Lemma update_without_fields_changes_nothing_witness :
  run (items_php (updateItem 1 no_item_fields 300)) sample_world
  = ({| status := 400; content := ErrorBody "No fields to update" |}, sample_world)
  /\ run (part_000_php (updateItem 1 no_item_fields 300)) sample_world
     = ({| status := 500; content := ErrorBody "Database error occurred" |}, sample_world).
Proof.
  destruct (update_without_fields_changes_nothing sample_world 7 1 300
              (conj eq_refl eq_refl) eq_refl) as [H1 H2]; [discriminate |].
  split; [| exact H2].
  apply H1. apply Exists_cons_hd. split; reflexivity.
Defined.

(** ** Accounts and sessions *)

Lemma login_run password_verify username password now w :
  php_empty (trim username) = false ->
  php_empty password = false ->
  db_connect_error w = None ->
  db_faults w = [] ->
  run (login_php password_verify (loginUser username password now)) w
  = match fst (sql_select_user (trim username) (db w)) with
    | None => (invalid_credentials, w)
    | Some u =>
        if password_verify password (u_password u) then
          ({| status := 200;
              content := UserBody "Login successful" (u_id u) (u_username u) |},
           set_session (Some (u_id u, u_username u)) w)
        else (invalid_credentials, w)
    end.
Proof.
  intros Hu Hp Hc Hf.
  unfold run, login_php, loginUser; cbn [req_method req_body c_username c_password].
  change (default "" (Some username)) with username.
  change (default "" (Some password)) with password.
  rewrite Hu, Hp. cbn [orb negb String.eqb Ascii.eqb Bool.eqb].
  unfold try_catch, bind, getDB. rewrite Hc.
  rewrite execute_no_faults by exact Hf.
  unfold sql_select_user; cbn [fst snd]. rewrite set_db_same.
  destruct (List.find _ (users (db w))) as [u |]; [| reflexivity].
  destruct (password_verify password (u_password u)); reflexivity.
Qed.

(** X9: [login.php] on a working store, for a username and a password
    that are not empty.  A username no account has and a password that does
    not verify against the account's hash get the same answer, 401 "Invalid
    username or password", and both leave the session and the store as they
    were. *)
Theorem login_failures_are_indistinguishable password_verify username password now w :
  php_empty (trim username) = false ->
  php_empty password = false ->
  db_connect_error w = None ->
  db_faults w = [] ->
  (fst (sql_select_user (trim username) (db w)) = None
   \/ exists u, fst (sql_select_user (trim username) (db w)) = Some u
                /\ password_verify password (u_password u) = false) ->
  run (login_php password_verify (loginUser username password now)) w
  = (invalid_credentials, w).
Proof.
  intros Hu Hp Hc Hf Hcase.
  rewrite (login_run _ _ _ _ _ Hu Hp Hc Hf).
  destruct Hcase as [-> | (u & -> & ->)]; reflexivity.
Qed.

Lemma login_failures_are_indistinguishable_witness :
  run (login_php toy_verify (loginUser "carol" "Secret1!" 300)) sample_world
  = (invalid_credentials, sample_world)
  /\ run (login_php toy_verify (loginUser "alice" "Secret1!" 300)) sample_world
     = (invalid_credentials, sample_world).
Proof.
  split.
  - apply (login_failures_are_indistinguishable toy_verify "carol" "Secret1!" 300
             sample_world eq_refl eq_refl eq_refl eq_refl).
    left. reflexivity.
  - apply (login_failures_are_indistinguishable toy_verify "alice" "Secret1!" 300
             sample_world eq_refl eq_refl eq_refl eq_refl).
    right. eexists. split; reflexivity.
Defined.

(** X10: a login with the password that verifies against the account's
    hash answers 200 with the account's identifier and name, leaves the
    store as it was, and opens the session of that account: the list
    request that follows is answered with that user's items. *)
Theorem login_opens_the_session_of_the_account password_verify put username password
    now later w u :
  php_empty (trim username) = false ->
  php_empty password = false ->
  db_connect_error w = None ->
  db_faults w = [] ->
  fst (sql_select_user (trim username) (db w)) = Some u ->
  password_verify password (u_password u) = true ->
  let logged := run (login_php password_verify (loginUser username password now)) w in
  fst logged
  = {| status := 200; content := UserBody "Login successful" (u_id u) (u_username u) |}
  /\ u_username u = trim username
  /\ db (snd logged) = db w
  /\ php_session (snd logged) = Some (u_id u, u_username u)
  /\ fst (run (items_script put (getShoppingList later)) (snd logged))
     = {| status := 200;
          content := ItemsBody (map fetch_columns
                                  (order_by (owned (u_id u) (shopping_items (db w))))) |}.
Proof.
  intros Hu Hp Hc Hf Hfound Hver logged. subst logged.
  rewrite (login_run _ _ _ _ _ Hu Hp Hc Hf), Hfound, Hver.
  cbn [fst snd]. split; [reflexivity |].
  split.
  { unfold sql_select_user in Hfound; cbn [fst] in Hfound.
    apply List.find_some in Hfound as [_ H]. apply String.eqb_eq in H. exact H. }
  split; [reflexivity |]. split; [reflexivity |].
  rewrite (items_get_run put _ (u_id u) later).
  - reflexivity.
  - split; [reflexivity | exact Hc].
  - exact Hf.
Qed.

Lemma login_opens_the_session_of_the_account_witness :
  let w := {| db := {| shopping_items := shopping_items (db sample_world);
                       users := [{| u_id := 7; u_username := "alice";
                                    u_password := toy_hash "Secret1!" |}];
                       next_item_id := 5; next_user_id := 8 |};
              php_session := None; db_connect_error := None; db_faults := [];
              transaction := None |} in
  let logged := run (login_php toy_verify (loginUser " alice " "Secret1!" 300)) w in
  php_session (snd logged) = Some (7, "alice")
  /\ fst (run (items_php (getShoppingList 400)) (snd logged))
     = {| status := 200;
          content := ItemsBody (map fetch_columns
                       [sample_row 4 7 "Tea" false 130; sample_row 1 7 "Milk" false 100;
                        sample_row 3 7 "Eggs" true 120]) |}.
Proof.
  intros w logged. subst logged.
  destruct (login_opens_the_session_of_the_account toy_verify items_put
              " alice " "Secret1!" 300 400 w
              {| u_id := 7; u_username := "alice"; u_password := toy_hash "Secret1!" |}
              eq_refl eq_refl eq_refl eq_refl eq_refl eq_refl)
    as (_ & _ & _ & Hs & Hl).
  split; [exact Hs |].
  unfold items_php. rewrite Hl. reflexivity.
Defined.

(** [logout.php] destroys the session and leaves the store as it is;
    after it every request to [items.php], in either revision, is answered
    401 "Authentication required" and changes nothing. *)
Lemma logout_closes_the_session put r now w :
  run (logout_php (logoutUser now)) w
  = ({| status := 200; content := MessageBody "Logout successful" |}, set_session None w)
  /\ run (items_script put r) (set_session None w) = (unauthorized, set_session None w).
Proof.
  split; [reflexivity |].
  apply items_script_unauthenticated. reflexivity.
Qed.

Lemma select_user_none name d :
  fst (sql_select_user name d) = None -> ~ In name (map u_username (users d)).
Proof.
  unfold sql_select_user; cbn [fst]. intros Hnone Hin.
  apply in_map_iff in Hin as (u & Hname & Hin).
  apply (List.find_none _ _ Hnone) in Hin. cbn in Hin.
  rewrite Hname, String.eqb_refl in Hin. discriminate.
Qed.

Lemma select_user_appended name d u :
  fst (sql_select_user name d) = None -> u_username u = name ->
  List.find (fun x => String.eqb (u_username x) name) (users d ++ [u]) = Some u.
Proof.
  unfold sql_select_user; cbn [fst]. intros Hnone Hname.
  induction (users d) as [| x l IH]; cbn [List.find app] in *.
  - rewrite Hname, String.eqb_refl. reflexivity.
  - destruct (String.eqb (u_username x) name); [discriminate | exact (IH Hnone)].
Qed.

(** The registration script leaves the tables as they are, or inserts one
    account under a name its query did not find. *)
Lemma register_db password_hash r w :
  db (snd (run (register_php password_hash r) w)) = db w
  \/ exists name hash,
       fst (sql_select_user name (db w)) = None
       /\ db (snd (run (register_php password_hash r) w))
          = snd (sql_insert_user name hash (db w)).
Proof.
  unfold run, register_php.
  destruct (negb (String.eqb (req_method r) "POST")); [left; reflexivity |].
  destruct (req_body r) as [c |]; [| left; reflexivity].
  destruct (php_empty _ || php_empty _); [left; reflexivity |].
  destruct (String.length _ <? 8)%nat; [left; reflexivity |].
  set (name := trim (default "" (c_username c))).
  set (hash := password_hash (default "" (c_password c))).
  unfold try_catch, bind, getDB.
  destruct (db_connect_error w); [left; reflexivity |].
  destruct (execute_cases (sql_select_user name) w) as [[msg H] | H]; rewrite H;
    [left; reflexivity |].
  destruct (fst (sql_select_user name (db w))) as [u |] eqn:Efound;
    [left; reflexivity |].
  match goal with |- context [execute ?s ?w1] =>
    destruct (execute_cases s w1) as [[msg H1] | H1]; rewrite H1
  end; [left; reflexivity |].
  right. exists name, hash. split; [exact Efound | reflexivity].
Qed.

(** X11: the registration script, for every request and whatever storage
    faults occur, keeps the usernames of the table distinct, never alters or
    removes an account, adds at most one, and leaves the items alone. *)
Theorem register_keeps_usernames_unique password_hash r w :
  unique_usernames (db w) ->
  let after := db (snd (run (register_php password_hash r) w)) in
  unique_usernames after
  /\ (exists added, users after = users (db w) ++ added /\ (length added <= 1)%nat)
  /\ shopping_items after = shopping_items (db w).
Proof.
  intros Hu after. subst after.
  destruct (register_db password_hash r w) as [-> | (name & hash & Hfree & ->)].
  - split; [exact Hu |]. split; [| reflexivity].
    exists []. rewrite app_nil_r. split; [reflexivity | simpl; lia].
  - unfold sql_insert_user; cbn [snd]. split; [| split; [| reflexivity]].
    + unfold unique_usernames; cbn [users]. rewrite map_app. cbn [map u_username].
      apply NoDup_app. split; [exact Hu |]. split; [| apply NoDup_singleton].
      intros x Hx Hx'. apply list_elem_of_In in Hx'. cbn in Hx'.
      destruct Hx' as [<- | []].
      apply (select_user_none name (db w) Hfree). apply list_elem_of_In. exact Hx.
    + cbn [users]. eexists [_]. split; [reflexivity | simpl; lia].
Qed.

Lemma register_keeps_usernames_unique_witness :
  let after := db (snd (run (register_php toy_hash (registerUser "alice" "Secret1!" 300))
                          sample_world)) in
  unique_usernames after /\ users after = users (db sample_world).
Proof.
  intros after.
  destruct (register_keeps_usernames_unique toy_hash
              (registerUser "alice" "Secret1!" 300) sample_world) as (H & _ & _).
  - apply (bool_decide_unpack _). vm_compute. reflexivity.
  - split; [exact H | reflexivity].
Defined.

Lemma long_password_not_empty password :
  (8 <= String.length password)%nat -> php_empty password = false.
Proof.
  intros H. destruct (php_empty password) eqn:E; [| reflexivity].
  apply php_empty_iff in E as [-> | ->]; simpl in H; lia.
Qed.

(** X12: registering and then logging in.  On a working store, for a
    username that is not empty after trimming and that no account has, and
    a password of at least 8 bytes whose hash verifies, the registration
    answers 200 with the next identifier, stores the account with the
    hashed password, and opens its session; the login with the same
    credentials then answers 200 with the same identifier and name. *)
Theorem register_then_login password_hash password_verify username password now later w :
  php_empty (trim username) = false ->
  (8 <= String.length password)%nat ->
  db_connect_error w = None ->
  db_faults w = [] ->
  fst (sql_select_user (trim username) (db w)) = None ->
  password_verify password (password_hash password) = true ->
  let registered := run (register_php password_hash (registerUser username password now)) w in
  fst registered
  = {| status := 200;
       content := UserBody "User registered successfully" (next_user_id (db w))
                    (trim username) |}
  /\ users (db (snd registered))
     = users (db w) ++ [{| u_id := next_user_id (db w); u_username := trim username;
                           u_password := password_hash password |}]
  /\ php_session (snd registered) = Some (next_user_id (db w), trim username)
  /\ fst (run (login_php password_verify (loginUser username password later)) (snd registered))
     = {| status := 200;
          content := UserBody "Login successful" (next_user_id (db w)) (trim username) |}.
Proof.
  intros Hu Hlen Hc Hf Hfree Hver registered.
  pose proof (long_password_not_empty _ Hlen) as Hp.
  assert (Hreg : registered
                 = ({| status := 200;
                       content := UserBody "User registered successfully"
                                    (next_user_id (db w)) (trim username) |},
                    set_session (Some (next_user_id (db w), trim username))
                      (set_db (snd (sql_insert_user (trim username) (password_hash password)
                                      (db w))) w))).
  { subst registered.
    unfold run, register_php, registerUser; cbn [req_method req_body c_username c_password].
    change (default "" (Some username)) with username.
    change (default "" (Some password)) with password.
    rewrite Hu, Hp. cbn [orb negb String.eqb Ascii.eqb Bool.eqb].
    destruct (String.length password <? 8)%nat eqn:E; [apply Nat.ltb_lt in E; lia |].
    unfold try_catch, bind, getDB. rewrite Hc.
    rewrite execute_no_faults by exact Hf. rewrite Hfree.
    unfold sql_select_user at 1; cbn [snd]. rewrite set_db_same.
    rewrite execute_no_faults by exact Hf. reflexivity. }
  rewrite Hreg. cbn [fst snd]. split; [reflexivity |]. split; [reflexivity |].
  split; [reflexivity |].
  rewrite (login_run _ _ _ _ _ Hu Hp); [| exact Hc | destruct w; exact Hf].
  unfold sql_select_user; cbn [fst db set_db set_session sql_insert_user snd users].
  rewrite (select_user_appended (trim username) (db w)
             {| u_id := next_user_id (db w); u_username := trim username;
                u_password := password_hash password |} Hfree eq_refl).
  cbn [u_password u_id u_username]. rewrite Hver. reflexivity.
Qed.

Lemma register_then_login_witness :
  let registered := run (register_php toy_hash (registerUser "carol" "Secret1!" 300))
                      sample_world in
  fst registered
  = {| status := 200; content := UserBody "User registered successfully" 9 "carol" |}
  /\ fst (run (login_php toy_verify (loginUser "carol" "Secret1!" 400)) (snd registered))
     = {| status := 200; content := UserBody "Login successful" 9 "carol" |}.
Proof.
  intros registered. subst registered.
  destruct (register_then_login toy_hash toy_verify "carol" "Secret1!" 300 400 sample_world
              eq_refl) as (H1 & _ & _ & H4).
  - simpl. lia.
  - reflexivity.
  - reflexivity.
  - reflexivity.
  - reflexivity.
  - split; [exact H1 | exact H4].
Defined.

(** * Further properties of the client *)

(** ** [escapeHtml] *)

Ltac escape_cases c :=
  unfold escape_char;
  destruct (N.eqb_spec c 38); [|
  destruct (N.eqb_spec c 60); [|
  destruct (N.eqb_spec c 62); [|
  destruct (N.eqb_spec c 34); [|
  destruct (N.eqb_spec c 39)]]]].

Lemma escape_char_plain c : markup_char c = false -> escape_char c = [c].
Proof.
  unfold markup_char, escape_char. intros H.
  destruct (c =? 38)%N, (c =? 60)%N, (c =? 62)%N, (c =? 34)%N, (c =? 39)%N;
    try discriminate H; reflexivity.
Qed.

Lemma escape_char_markup c :
  markup_char c = true -> exists a b rest, escape_char c = 38%N :: a :: b :: rest.
Proof.
  unfold markup_char, escape_char. intros H.
  destruct (c =? 38)%N; [do 3 eexists; reflexivity |].
  destruct (c =? 60)%N; [do 3 eexists; reflexivity |].
  destruct (c =? 62)%N; [do 3 eexists; reflexivity |].
  destruct (c =? 34)%N; [do 3 eexists; reflexivity |].
  destruct (c =? 39)%N; [do 3 eexists; reflexivity | discriminate H].
Qed.

Lemma escapeHtml_length text : (length text <= length (escapeHtml text))%nat.
Proof.
  induction text as [| c text IH]; [reflexivity |].
  cbn [escapeHtml flat_map]. fold (escapeHtml text). rewrite length_app.
  destruct (markup_char c) eqn:E.
  - destruct (escape_char_markup c E) as (a & b & rest & ->). simpl. lia.
  - rewrite (escape_char_plain c E). simpl. lia.
Qed.

(** X13: the text [escapeHtml] returns holds no angle bracket, no double
    quote and no apostrophe, whatever the input; and it returns its input
    unchanged exactly when the input holds none of the five characters it
    replaces. *)
Theorem escapeHtml_leaves_no_markup text :
  Forall (fun c => c <> 60 /\ c <> 62 /\ c <> 34 /\ c <> 39)%N (escapeHtml text)
  /\ (escapeHtml text = text <-> Forall (fun c => markup_char c = false) text).
Proof.
  split.
  - induction text as [| c text IH]; [constructor |].
    cbn [escapeHtml flat_map]. fold (escapeHtml text).
    apply Forall_app. split; [| exact IH].
    escape_cases c; repeat constructor; try discriminate; assumption.
  - induction text as [| c text IH]; [split; [constructor | reflexivity] |].
    cbn [escapeHtml flat_map]. fold (escapeHtml text).
    destruct (markup_char c) eqn:E.
    + split.
      * intros H. exfalso. apply (f_equal (@length N)) in H.
        rewrite length_app in H.
        destruct (escape_char_markup c E) as (a & b & rest & Hc). rewrite Hc in H.
        pose proof (escapeHtml_length text). simpl in H. lia.
      * intros H. apply Forall_inv in H. congruence.
    + rewrite (escape_char_plain c E). cbn [app]. split.
      * intros H. injection H as H. constructor; [exact E | apply IH, H].
      * intros H. apply Forall_inv_tail in H. f_equal. apply IH, H.
Qed.

Lemma escape_char_prefix c c' rest rest' :
  escape_char c ++ rest = escape_char c' ++ rest' -> c = c' /\ rest = rest'.
Proof.
  escape_cases c; escape_cases c'; subst; intros H; vm_compute in H;
    try (injection H; intros; subst; split; congruence);
    try (exfalso; injection H; intros; subst; congruence);
    try discriminate H.
Qed.

(** X14: [escapeHtml] is injective: two different texts are never rendered
    as the same escaped text. *)
Theorem escapeHtml_injective text1 : forall text2,
  escapeHtml text1 = escapeHtml text2 -> text1 = text2.
Proof.
  induction text1 as [| c text1 IH]; intros [| c' text2] H.
  - reflexivity.
  - exfalso. cbn [escapeHtml flat_map] in H. revert H.
    escape_cases c'; discriminate.
  - exfalso. cbn [escapeHtml flat_map] in H. revert H.
    escape_cases c; discriminate.
  - cbn [escapeHtml flat_map] in H. fold (escapeHtml text1) (escapeHtml text2) in H.
    apply escape_char_prefix in H as [-> H]. f_equal. apply IH, H.
Qed.

Lemma escapeHtml_injective_witness :
  js "<b>Tom & Jerry</b>" = js "<b>Tom & Jerry</b>"
  /\ escapeHtml (js "<b>Tom & Jerry</b>") = js "&lt;b&gt;Tom &amp; Jerry&lt;/b&gt;".
Proof.
  split; [| reflexivity].
  apply (escapeHtml_injective (js "<b>Tom & Jerry</b>") (js "<b>Tom & Jerry</b>")).
  reflexivity.
Defined.

Lemma escapeHtml_leaves_no_markup_witness :
  escapeHtml (js "2 kg") = js "2 kg".
Proof.
  apply (escapeHtml_leaves_no_markup (js "2 kg")).
  repeat constructor.
Defined.

(** ** The login lockout *)

Lemma login_keeps_bound c g :
  0 <= failedLoginAttempts g <= MAX_LOGIN_ATTEMPTS ->
  0 <= failedLoginAttempts (snd (login c g)) <= MAX_LOGIN_ATTEMPTS.
Proof.
  unfold login, isLockedOut, MAX_LOGIN_ATTEMPTS. intros H.
  destruct (5 <=? failedLoginAttempts g) eqn:E5.
  - destruct (call_now c <? lockoutUntil g); cbn [snd failedLoginAttempts].
    + exact H.
    + destruct (negb (call_filled c)); [cbn [snd failedLoginAttempts]; lia |].
      destruct (call_resolves c); [cbn [snd failedLoginAttempts]; lia |].
      cbn [failedLoginAttempts]. change (5 <=? 0 + 1) with false.
      cbn [snd failedLoginAttempts]. lia.
  - apply Z.leb_gt in E5.
    destruct (negb (call_filled c)); [cbn [snd failedLoginAttempts]; lia |].
    destruct (call_resolves c); [cbn [snd failedLoginAttempts]; lia |].
    cbn [failedLoginAttempts].
    destruct (5 <=? failedLoginAttempts g + 1) eqn:E; cbn [snd failedLoginAttempts]; lia.
Qed.

(** X15: whatever calls of [login] are made, in whatever order and at
    whatever times, the counter of failed attempts stays between 0 and
    5. *)
Theorem login_attempts_stay_bounded calls :
  0 <= failedLoginAttempts (after_logins calls initial_guard) <= MAX_LOGIN_ATTEMPTS.
Proof.
  unfold after_logins.
  assert (H0 : 0 <= failedLoginAttempts initial_guard <= MAX_LOGIN_ATTEMPTS)
    by (unfold MAX_LOGIN_ATTEMPTS; simpl; lia).
  revert H0. generalize initial_guard as g.
  induction calls as [| c calls IH]; intros g H; cbn [fold_left].
  - exact H.
  - apply IH, login_keeps_bound, H.
Qed.

Lemma login_refused_step c g :
  refused_call c ->
  0 <= failedLoginAttempts g < MAX_LOGIN_ATTEMPTS ->
  login c g
  = (Refused,
     {| failedLoginAttempts := failedLoginAttempts g + 1;
        lockoutUntil := if failedLoginAttempts g =? 4
                        then call_caught_at c + LOCKOUT_TIME else lockoutUntil g |}).
Proof.
  intros [Hfilled Hres] Hn. unfold login, isLockedOut, MAX_LOGIN_ATTEMPTS in *.
  destruct (5 <=? failedLoginAttempts g) eqn:E5; [apply Z.leb_le in E5; lia |].
  rewrite Hfilled, Hres. cbn [negb].
  destruct (failedLoginAttempts g =? 4) eqn:E4.
  - apply Z.eqb_eq in E4. rewrite E4. reflexivity.
  - apply Z.eqb_neq in E4.
    destruct (5 <=? failedLoginAttempts g + 1) eqn:E; [apply Z.leb_le in E; lia |].
    reflexivity.
Qed.

(** X16: five calls in a row that the server refuses, starting with the
    counter at 0, lock the login for five minutes from the moment the fifth
    refusal is caught: until then a call sends nothing and leaves the guard
    as it is; a call made at that moment or later goes through with the
    counter restarted, so a refusal counts as the first and a success
    leaves it at 0. *)
Theorem five_refusals_lock_for_five_minutes c1 c2 c3 c4 c5 g :
  failedLoginAttempts g = 0 ->
  Forall refused_call [c1; c2; c3; c4; c5] ->
  let locked := after_logins [c1; c2; c3; c4; c5] g in
  locked = {| failedLoginAttempts := 5;
              lockoutUntil := call_caught_at c5 + 5 * 60 * 1000 |}
  /\ (forall c, call_now c < call_caught_at c5 + 5 * 60 * 1000 ->
                login c locked = (NotSent, locked))
  /\ (forall c, call_caught_at c5 + 5 * 60 * 1000 <= call_now c ->
                call_filled c = true ->
                fst (login c locked) = (if call_resolves c then LoggedIn else Refused)
                /\ failedLoginAttempts (snd (login c locked))
                   = (if call_resolves c then 0 else 1)).
Proof.
  intros Hg Hall locked.
  assert (Hlocked : locked = {| failedLoginAttempts := 5;
                                lockoutUntil := call_caught_at c5 + 5 * 60 * 1000 |}).
  { subst locked. unfold after_logins; cbn [fold_left].
    apply Forall_cons_1 in Hall as [H1 Hall].
    apply Forall_cons_1 in Hall as [H2 Hall].
    apply Forall_cons_1 in Hall as [H3 Hall].
    apply Forall_cons_1 in Hall as [H4 Hall].
    apply Forall_cons_1 in Hall as [H5 _].
    rewrite (login_refused_step c1 g H1)
      by (unfold MAX_LOGIN_ATTEMPTS; rewrite Hg; lia).
    rewrite Hg. cbn [snd Z.eqb Z.add Pos.eqb].
    rewrite (login_refused_step c2 _ H2) by (unfold MAX_LOGIN_ATTEMPTS; cbn; lia).
    cbn [snd failedLoginAttempts lockoutUntil Z.eqb Z.add Pos.eqb Pos.add Pos.succ].
    rewrite (login_refused_step c3 _ H3) by (unfold MAX_LOGIN_ATTEMPTS; cbn; lia).
    cbn [snd failedLoginAttempts lockoutUntil Z.eqb Z.add Pos.eqb Pos.add Pos.succ].
    rewrite (login_refused_step c4 _ H4) by (unfold MAX_LOGIN_ATTEMPTS; cbn; lia).
    cbn [snd failedLoginAttempts lockoutUntil Z.eqb Z.add Pos.eqb Pos.add Pos.succ].
    rewrite (login_refused_step c5 _ H5) by (unfold MAX_LOGIN_ATTEMPTS; cbn; lia).
    reflexivity. }
  rewrite Hlocked. clear Hlocked locked.
  split; [reflexivity |]. split.
  - intros c Hc. unfold login, isLockedOut, MAX_LOGIN_ATTEMPTS.
    cbn [failedLoginAttempts lockoutUntil].
    change (5 <=? 5) with true. cbv iota.
    apply Z.ltb_lt in Hc. rewrite Hc. reflexivity.
  - intros c Hc Hfilled. unfold login, isLockedOut, MAX_LOGIN_ATTEMPTS.
    cbn [failedLoginAttempts lockoutUntil].
    change (5 <=? 5) with true. cbv iota.
    apply Z.ltb_ge in Hc. rewrite Hc, Hfilled. cbn [negb].
    destruct (call_resolves c); split; reflexivity.
Qed.

Lemma five_refusals_lock_for_five_minutes_witness :
  let locked :=
    after_logins [refusal_at 10; refusal_at 20; refusal_at 30; refusal_at 40; refusal_at 50]
      initial_guard in
  login (attempt_at 300000) locked = (NotSent, locked)
  /\ fst (login (attempt_at 300051) locked) = LoggedIn.
Proof.
  intros locked. subst locked.
  destruct (five_refusals_lock_for_five_minutes
              (refusal_at 10) (refusal_at 20) (refusal_at 30) (refusal_at 40) (refusal_at 50)
              initial_guard eq_refl) as (_ & Hlocked & Hopen).
  - repeat constructor.
  - split.
    + apply Hlocked. simpl. lia.
    + apply (Hopen (attempt_at 300051)); [simpl; lia | reflexivity].
Defined.

(** ** The session cache *)

(** X17: after [clearSession] nothing is left of a session, whatever the
    two storages held: [getSession] and [getUser] answer null, the
    remember-me preference reads false, and the validity check of either
    revision answers false. *)
Theorem clearSession_forgets_the_session b now :
  let cleared := snd (clearSession b) in
  getSession cleared = None
  /\ getUser cleared = None
  /\ getRememberMe cleared = false
  /\ isSessionValid now cleared = false
  /\ SessionManager2.isSessionValid now cleared = false.
Proof.
  intros cleared.
  assert (Hs : getSession cleared = None).
  { subst cleared. unfold getSession, clearSession; cbn [snd sessionStorage localStorage].
    rewrite lookup_delete_eq.
    rewrite lookup_delete_ne by discriminate.
    rewrite lookup_delete_ne by discriminate.
    rewrite lookup_delete_eq. reflexivity. }
  assert (Hr : getRememberMe cleared = false).
  { subst cleared. unfold getRememberMe, clearSession; cbn [snd localStorage].
    rewrite lookup_delete_eq. reflexivity. }
  unfold getUser, isSessionValid, SessionManager2.isSessionValid.
  rewrite Hs, Hr. repeat split.
Qed.

(** X18: what the later [saveSession] (lines 2552-2573) leaves to read.
    The preference read back is the flag saved.  Without the flag the saved
    session is the one [getSession] returns.  With the flag it is returned
    only when the session storage holds no entry: an entry left there by an
    earlier save without the flag is not removed, and [getSession] keeps
    returning that older session. *)
Theorem saveSession_reads_back u remember now b :
  let saved := snd (saveSession u remember now b) in
  let session :=
    StoredSession {| user := u; timestamp := now; rememberMe := remember |} in
  getRememberMe saved = remember
  /\ (remember = false -> getSession saved = Some session)
  /\ (remember = true -> sessionStorage b !! SESSION_KEY = None ->
      getSession saved = Some session)
  /\ (remember = true ->
      forall older, sessionStorage b !! SESSION_KEY = Some (StoredSession older) ->
      getSession saved = Some (StoredSession older)).
Proof.
  intros saved session. subst saved session.
  split; [| split; [| split]].
  - unfold getRememberMe, saveSession; cbn [snd localStorage].
    rewrite lookup_insert_eq. destruct remember; reflexivity.
  - intros ->. unfold getSession, saveSession; cbn [snd sessionStorage].
    rewrite lookup_insert_eq. reflexivity.
  - intros -> Hnone. apply getSession_saveSession. exact Hnone.
  - intros -> older Hold. unfold getSession, saveSession; cbn [snd sessionStorage].
    rewrite Hold. reflexivity.
Qed.

Lemma saveSession_reads_back_witness :
  let first := snd (saveSession alice false 1000 empty_browser) in
  let second := snd (saveSession bob true 2000 first) in
  getSession first
  = Some (StoredSession {| user := alice; timestamp := 1000; rememberMe := false |})
  /\ getSession second
     = Some (StoredSession {| user := alice; timestamp := 1000; rememberMe := false |})
  /\ getSession (snd (saveSession bob true 2000 empty_browser))
     = Some (StoredSession {| user := bob; timestamp := 2000; rememberMe := true |}).
Proof.
  intros first second.
  destruct (saveSession_reads_back alice false 1000 empty_browser) as (_ & H1 & _ & _).
  destruct (saveSession_reads_back bob true 2000 first) as (_ & _ & _ & H2).
  destruct (saveSession_reads_back bob true 2000 empty_browser) as (_ & _ & H3 & _).
  split; [apply H1; reflexivity |].
  split; [apply (H2 eq_refl); reflexivity |].
  apply (H3 eq_refl). reflexivity.
Defined.

(** X19: the earlier [saveSession] (lines 1226-1249), which removes the
    entry of the other storage, always reads back: whatever the storages
    held, [getSession] returns the session just saved, the preference is
    the flag saved, and the validity check of that revision answers true
    without the flag and, with it, exactly while fewer than seven days have
    passed since the save. *)
Theorem SessionManager2_saveSession_reads_back u remember now later b :
  let saved := snd (SessionManager2.saveSession u remember now b) in
  getSession saved
  = Some (StoredSession {| user := u; timestamp := now; rememberMe := remember |})
  /\ getUser saved = Some u
  /\ getRememberMe saved = remember
  /\ SessionManager2.isSessionValid later saved
     = (if remember then later - now <? 7 * 24 * 60 * 60 * 1000 else true).
Proof.
  intros saved.
  assert (Hs : getSession saved
               = Some (StoredSession
                         {| user := u; timestamp := now; rememberMe := remember |})).
  { subst saved. unfold getSession, SessionManager2.saveSession.
    destruct remember; cbn [snd sessionStorage localStorage].
    - rewrite lookup_delete_eq.
      rewrite lookup_insert_ne by discriminate.
      rewrite lookup_insert_ne by discriminate.
      rewrite lookup_insert_eq. reflexivity.
    - rewrite lookup_insert_eq. reflexivity. }
  assert (Hr : getRememberMe saved = remember).
  { subst saved. unfold getRememberMe, SessionManager2.saveSession; cbn [snd localStorage].
    rewrite lookup_insert_eq. destruct remember; reflexivity. }
  unfold getUser, SessionManager2.isSessionValid. rewrite Hs, Hr.
  repeat split.
Qed.

(** ** The registration form and the registration script *)

Lemma strength_of_score password :
  strength (checkStrength password) = strengthLevel (fst (tally password)).
Proof. unfold checkStrength. destruct (tally password). reflexivity. Qed.

Lemma score_bounds password : 0 <= fst (tally password) <= 4.
Proof.
  rewrite tally_points. cbn [fst]. unfold point.
  destruct (_ <=? _)%nat, (_ && _), (hasNumbers _), (hasSpecial _); lia.
Qed.

(** X20: the client sends the registration form exactly when the username
    has at least 3 code units, the two password fields agree, and the
    password meets at least three of the four requirements of the strength
    checker.  In particular it sends passwords shorter than 8. *)
Theorem register_form_is_sent_iff username password confirm :
  register_form_error username password confirm = None
  <-> (3 <= length username)%nat /\ password = confirm /\ 3 <= fst (tally password).
Proof.
  unfold register_form_error. rewrite strength_of_score.
  pose proof (score_bounds password) as Hb.
  assert (Hlevel : (String.eqb (strengthLevel (fst (tally password))) "very-weak"
                    || String.eqb (strengthLevel (fst (tally password))) "weak") = false
                   <-> 3 <= fst (tally password)).
  { rewrite strengthLevel_bands.
    destruct (fst (tally password) <? 2) eqn:E2; [apply Z.ltb_lt in E2; simpl; split; [discriminate | lia] |].
    destruct (fst (tally password) <? 3) eqn:E3; [apply Z.ltb_lt in E3; simpl; split; [discriminate | lia] |].
    apply Z.ltb_ge in E3.
    destruct (fst (tally password) <? 4); simpl; split; auto. }
  destruct username as [| u1 username].
  { rewrite (bool_decide_eq_true_2 (@nil N = [])) by reflexivity. cbn [orb].
    split; [discriminate | intros [H _]; simpl in H; lia]. }
  destruct password as [| p1 password].
  { rewrite (bool_decide_eq_true_2 (@nil N = [])) by reflexivity. rewrite orb_true_r.
    split; [discriminate |]. intros (_ & _ & H).
    change (fst (tally [])) with 0 in H. lia. }
  rewrite !bool_decide_eq_false_2 by discriminate. cbn [orb].
  destruct (length (u1 :: username) <? 3)%nat eqn:El.
  { apply Nat.ltb_lt in El. split; [discriminate | intros [H _]; lia]. }
  apply Nat.ltb_ge in El.
  destruct (decide (p1 :: password = confirm)) as [Ec | Ec];
    [rewrite bool_decide_eq_true_2 by exact Ec
    | rewrite bool_decide_eq_false_2 by exact Ec]; cbn [negb].
  2: { split; [discriminate | tauto]. }
  destruct (String.eqb _ "very-weak" || String.eqb _ "weak") eqn:Es.
  - split; [discriminate |]. intros (_ & _ & H). apply Hlevel in H. congruence.
  - split; [| reflexivity]. intros _. split; [exact El |]. split; [exact Ec |].
    apply Hlevel. reflexivity.
Qed.

Lemma register_form_is_sent_iff_witness :
  register_form_error (js "ann") (js "Aa1!") (js "Aa1!") = None.
Proof.
  apply (register_form_is_sent_iff (js "ann") (js "Aa1!") (js "Aa1!")).
  split; [simpl; lia |]. split; [reflexivity |]. vm_compute. discriminate.
Defined.

(** X21: what the registration script refuses, in the order of its
    checks, each time leaving the store and the session as they were: a
    username that is empty after trimming or an empty password, 400; else a
    password shorter than 8 bytes, 400; else, on a working store, a username
    an account already has, 409, so the stored hash of that account is not
    replaced. *)
Theorem register_refusals password_hash username password now w :
  let result := run (register_php password_hash (registerUser username password now)) w in
  (php_empty (trim username) = true \/ php_empty password = true ->
     result = ({| status := 400;
                  content := ErrorBody "Username and password are required" |}, w))
  /\ (php_empty (trim username) = false -> php_empty password = false ->
      (String.length password < 8)%nat ->
      result = ({| status := 400;
                   content := ErrorBody "Password must be at least 8 characters long" |}, w))
  /\ (php_empty (trim username) = false -> (8 <= String.length password)%nat ->
      db_connect_error w = None -> db_faults w = [] ->
      forall account, fst (sql_select_user (trim username) (db w)) = Some account ->
      result = ({| status := 409; content := ErrorBody "Username already exists" |}, w)).
Proof.
  intros result. subst result.
  unfold run, register_php, registerUser; cbn [req_method req_body c_username c_password].
  change (default "" (Some username)) with username.
  change (default "" (Some password)) with password.
  cbn [negb String.eqb Ascii.eqb Bool.eqb].
  split; [| split].
  - intros H.
    assert (E : (php_empty (trim username) || php_empty password) = true)
      by (apply orb_true_iff; exact H).
    rewrite E. reflexivity.
  - intros Hu Hp Hlen. rewrite Hu, Hp. cbn [orb].
    apply Nat.ltb_lt in Hlen. rewrite Hlen. reflexivity.
  - intros Hu Hlen Hc Hf account Hfound.
    rewrite Hu, (long_password_not_empty _ Hlen). cbn [orb].
    destruct (String.length password <? 8)%nat eqn:E; [apply Nat.ltb_lt in E; lia |].
    unfold try_catch, bind, getDB. rewrite Hc.
    rewrite execute_no_faults by exact Hf. rewrite Hfound.
    unfold sql_select_user; cbn [snd]. rewrite set_db_same. reflexivity.
Qed.

Lemma register_refusals_witness :
  run (register_php toy_hash (registerUser "carol" "Aa1!" 300)) sample_world
  = ({| status := 400;
        content := ErrorBody "Password must be at least 8 characters long" |}, sample_world)
  /\ run (register_php toy_hash (registerUser "alice" "Secret1!" 300)) sample_world
     = ({| status := 409; content := ErrorBody "Username already exists" |}, sample_world).
Proof.
  destruct (register_refusals toy_hash "carol" "Aa1!" 300 sample_world) as (_ & Hshort & _).
  destruct (register_refusals toy_hash "alice" "Secret1!" 300 sample_world) as (_ & _ & Htaken).
  split.
  - apply Hshort; [reflexivity | reflexivity | simpl; lia].
  - apply (Htaken eq_refl) with (account := {| u_id := 7; u_username := "alice";
                                               u_password := "h1" |});
      [simpl; lia | reflexivity | reflexivity | reflexivity].
Defined.

(** ** The single-item update of the revision, in general *)

Lemma map_update_keeps {B} (proj : item_row -> B) (cond : item_row -> bool)
    (set : item_row -> item_row) rows :
  (forall r, proj (set r) = proj r) ->
  map proj (map (fun r => if cond r then set r else r) rows) = map proj rows.
Proof.
  intros H. rewrite map_map. apply map_ext. intros r.
  destruct (cond r); [apply H | reflexivity].
Qed.

(** X22: in the revision with the bulk replace, the update of a single
    item, whatever fields it names and whatever storage faults occur, never
    sets or clears a completed timestamp and never changes an identifier,
    an owner or an added timestamp: these columns read the same, row by row,
    after the request as before. *)
Theorem part_000_update_keeps_completed_at w userId id updates now :
  authenticated w userId ->
  id <> 0 ->
  let after := shopping_items (db (snd (run (part_000_php (updateItem id updates now)) w))) in
  map i_completed_at after = map i_completed_at (shopping_items (db w))
  /\ map i_id after = map i_id (shopping_items (db w))
  /\ map i_user_id after = map i_user_id (shopping_items (db w))
  /\ map i_added_at after = map i_added_at (shopping_items (db w)).
Proof.
  intros Hauth Hid after. subst after.
  unfold run, part_000_php. rewrite (items_put_run _ _ _ _ _ _ Hauth).
  unfold try_catch, part_000_put, part_000_update, updateItem;
    cbn [req_id req_body truthy_id b_fields req_now].
  destruct (id =? 0) eqn:E; [apply Z.eqb_eq in E; contradiction |].
  destruct (no_fields updates).
  - unfold execute_malformed.
    destruct (db_faults w) as [| [msg |] rest]; cbn; repeat split.
  - unfold bind.
    match goal with |- context [execute ?s w] =>
      destruct (execute_cases s w) as [[msg H] | H]; rewrite H
    end.
    + cbn. repeat split.
    + destruct (fst (sql_update _ _ (db w)));

        unfold sendJsonResponse; cbn [snd db set_db set_faults sql_update set_items shopping_items];
        repeat split; apply map_update_keeps; reflexivity.
Qed.

Lemma part_000_update_keeps_completed_at_witness :
  map i_completed_at
    (shopping_items
       (db (snd (run (part_000_php (updateItem 1 (completed_only true) 300)) sample_world))))
  = [None; None; Some 120; None].
Proof.
  destruct (part_000_update_keeps_completed_at sample_world 7 1 (completed_only true) 300
              (conj eq_refl eq_refl)) as [H _]; [discriminate |].
  rewrite H. reflexivity.
Defined.

(** ** The bulk replace under storage faults *)

(** The insert loop runs its statements until one throws: without a fault
    among them every item gets its row, and with one the loop throws it.
    The open transaction stays open either way. *)
Lemma insert_items_run userId now items : forall w,
  match first_fault (length items) (db_faults w) with
  | None =>
      exists w',
        insert_items userId now items w = (Val tt, w')
        /\ transaction w' = transaction w
        /\ shopping_items (db w')
           = shopping_items (db w) ++ replaced_rows userId now (next_item_id (db w)) items
  | Some msg =>
      exists w',
        insert_items userId now items w = (Throw msg, w')
        /\ transaction w' = transaction w
  end.
Proof.
  induction items as [| item rest IH]; intros w.
  - cbn [length first_fault insert_items replaced_rows]. exists w.
    rewrite app_nil_r. repeat split.
  - cbn [length insert_items replaced_rows]. unfold bind, execute.
    destruct (db_faults w) as [| [msg |] faults] eqn:Ef; cbn [first_fault].
    + rewrite insert_one_row.
      match goal with |- context [insert_items _ _ _ ?w1] =>
        specialize (IH w1); set (w0 := w1) in *
      end.
      assert (E : db_faults w0 = []) by (subst w0; cbn; exact Ef).
      rewrite E in IH. destruct rest; cbn [length first_fault] in IH;
        destruct IH as (w' & Hrun & Ht & Hrows); exists w'; rewrite Hrun;
        (split; [reflexivity |]); (split; [exact Ht |]);
        rewrite Hrows; subst w0; cbn; rewrite <- app_assoc; reflexivity.
    + eexists. split; [reflexivity | reflexivity].
    + rewrite insert_one_row.
      match goal with |- context [insert_items _ _ _ ?w1] =>
        specialize (IH w1); set (w0 := w1) in *
      end.
      assert (E : db_faults w0 = faults) by (subst w0; reflexivity).
      rewrite E in IH.
      destruct (first_fault (length rest) faults) as [msg |].
      * destruct IH as (w' & Hrun & Ht). exists w'. rewrite Hrun.
        split; [reflexivity | exact Ht].
      * destruct IH as (w' & Hrun & Ht & Hrows). exists w'. rewrite Hrun.
        split; [reflexivity |]. split; [exact Ht |].
        rewrite Hrows. subst w0. cbn. rewrite <- app_assoc. reflexivity.
Qed.



(** ** The answers of the add handler *)

(** X24: the add request of an authenticated caller, in either revision of
    the script and whatever storage faults occur.  A text the handler takes
    for empty, or a quantity below 1, is answered 400 and the world is as
    before.  An answer with status 201 carries the record of a row appended
    to the table: its text is the trimmed text, its quantity is the
    quantity sent (1 when omitted) and is positive, and its unit is the
    unit as it was sent ("szt" when omitted), whatever it spells. *)
Theorem add_item_answer put w userId item now :
  authenticated w userId ->
  fresh_counter (db w) ->
  let result := run (items_script put (addItem item now)) w in
  (php_empty (trim (default "" (f_text item))) = true
   \/ default 1 (f_quantity item) < 1 ->
     status (fst result) = 400 /\ snd result = w)
  /\ (status (fst result) = 201 ->
      exists created row,
        content (fst result) = ItemBody created
        /\ created = fetch_columns row
        /\ shopping_items (db (snd result)) = shopping_items (db w) ++ [row]
        /\ i_user_id row = userId
        /\ j_text created = trim (default "" (f_text item))
        /\ j_quantity created = default 1 (f_quantity item)
        /\ 0 < j_quantity created
        /\ j_unit created = strval (default (MString "szt") (f_unit item))).
Proof.
  intros Hauth Hfresh result. subst result.
  unfold run. rewrite (items_post_run _ _ _ _ _ Hauth). unfold try_catch.
  destruct (php_empty (trim (default "" (f_text item)))) eqn:Htext.
  { unfold items_post, addItem; cbn [req_body b_fields].
    rewrite Htext. simpl. split; [auto | discriminate]. }
  destruct (default 1 (f_quantity item) <? 1) eqn:Hq.
  { unfold items_post, addItem; cbn [req_body b_fields].
    rewrite Htext, Hq. simpl. split; [auto | discriminate]. }
  apply Z.ltb_ge in Hq. split.
  - intros [H | H]; [discriminate | lia].
  - destruct (items_post_accepted userId item now w Hfresh Htext Hq)
      as [(msg & w' & H) | (w' & H & Hrows)]; rewrite H.
    + simpl. discriminate.
    + intros _. exists (fetch_columns (added_row (db w) userId now item)),
        (added_row (db w) userId now item).
      cbn [fst snd content]. rewrite Hrows.
      repeat (split; [reflexivity |]). split; [simpl; lia | reflexivity].
Qed.

Lemma add_item_answer_witness :
  (status (fst (run (items_php (addItem (sample_item "0" (Some 3) "kg") 300)) sample_world))
   = 400
   /\ snd (run (items_php (addItem (sample_item "0" (Some 3) "kg") 300)) sample_world)
      = sample_world)
  /\ exists created row,
       content (fst (run (items_php (addItem (sample_item " Milk " None "l") 300))
                       sample_world))
       = ItemBody created
       /\ created = fetch_columns row
       /\ shopping_items
            (db (snd (run (items_php (addItem (sample_item " Milk " None "l") 300))
                        sample_world)))
          = shopping_items (db sample_world) ++ [row]
       /\ i_user_id row = 7
       /\ j_text created = "Milk"
       /\ j_quantity created = 1
       /\ 0 < j_quantity created
       /\ j_unit created = "l".
Proof.
  assert (Hfresh : fresh_counter (db sample_world)) by (repeat constructor).
  destruct (add_item_answer items_put sample_world 7 (sample_item "0" (Some 3) "kg") 300
              (conj eq_refl eq_refl) Hfresh) as [Hreject _].
  destruct (add_item_answer items_put sample_world 7 (sample_item " Milk " None "l") 300
              (conj eq_refl eq_refl) Hfresh) as [_ Hcreated].
  split.
  - apply Hreject. left. reflexivity.
  - apply Hcreated. reflexivity.
Defined.
